(** * bo-gateway: a model of [src/index.js] and its properties

    The gateway is an Express application: an authentication middleware, a
    lazily initialised PostgreSQL pool, two thread-store functions, an LLM
    proxy and three protected routes.  This development embeds those
    functions as a state-and-exception monad over an explicit server state
    and proves properties of the routes.

    What is modelled, and how:
    - JavaScript values ([value]) with truthiness, [typeof], [ToString],
      [parseInt], property access and optional chaining;
    - [process.env] as a finite map, [CONFIG] computed from it as in the
      source;
    - the two tables of the schema as lists of rows, every SQL statement of
      the source as a function on them;
    - [async] code as a monad [M] threading the server state, in which a
      rejected promise is a thrown [error] that keeps the state reached;
    - the outside world (the provider behind [fetch], [uuidv4], the moments
      at which the store raises, the server clock) as data: fields of
      [externals] and the [script] of the state.

    A [string] is a text in UTF-8: one [ascii] per byte.  A Number is a
    double; the model has those that are integers, together with [NaN] and
    the two infinities.  A database is the rows of the two tables of the
    schema; the tables and indexes themselves, which the batch of [getDb]
    creates where they are missing, are not part of it.

    Outside the model: the middleware stack before the routes (helmet, body
    parsing, rate limiting, request logging; of CORS the origin test alone is
    modelled), interleaving of concurrent requests and numbers that are not
    integers. *)

From Stdlib Require Import Ascii.
From stdpp Require Import base strings list gmap pretty sorting.

Set Warnings "-register-all".

(** ** JavaScript values *)

Module Js.

Inductive value :=
  | VUndefined
  | VNull
  | VBool (b : bool)
  | VNum (n : Z)
  | VStr (s : string)
  | VArr (elements : list value)
  | VObj (fields : gmap string value).

(** [!!v] *)
Definition truthy (v : value) : bool :=
  match v with
  | VUndefined | VNull => false
  | VBool b => b
  | VNum n => negb (n =? 0)%Z
  | VStr s => negb (String.eqb s "")
  | VArr _ | VObj _ => true
  end.

(** [typeof v === 'string'] *)
Definition is_string (v : value) : bool :=
  match v with VStr _ => true | _ => false end.

(** [v == null] *)
Definition nullish (v : value) : bool :=
  match v with VUndefined | VNull => true | _ => false end.

(** [a || b] *)
Definition or_else (a b : value) : value := if truthy a then a else b.

Fixpoint join_comma (l : list string) : string :=
  match l with
  | [] => ""
  | [s] => s
  | s :: rest => s +:+ "," +:+ join_comma rest
  end.

(** *** Numbers

    [VNum n] is the Number that the integer literal [n] denotes: the double
    nearest to [n]. *)
Inductive number :=
  | NaN
  | Infinity (negative : bool)
  | Finite (n : Z).

(** The double nearest to the natural number [n], ties to the even
    significand; it is an integer again.  A result of 2^1024 or more is
    beyond the finite doubles. *)
Definition round_double (n : Z) : Z :=
  if (n <? 2 ^ 53)%Z then n
  else
    let e := (Z.log2 n - 52)%Z in
    let q := Z.shiftr n e in
    let r := (n - Z.shiftl q e)%Z in
    let half := Z.shiftl 1 (e - 1) in
    let q' :=
      if (half <? r)%Z || ((r =? half)%Z && Z.odd q) then (q + 1)%Z else q in
    Z.shiftl q' e.

(** The Number value for the integer [n]. *)
Definition number_of (n : Z) : number :=
  let m := round_double (Z.abs n) in
  if (2 ^ 1024 <=? m)%Z then Infinity (n <? 0)%Z
  else Finite (Z.sgn n * m).

(** The decimal with the fewest significant digits that denotes the double
    [x > 0] of [len] digits: among the multiples of [10 ^ (len - k)] next to
    [x], for [k = 1, 2, ...], the first that rounds to [x]; of two that do,
    the nearer to [x], and the one with the even digits on a tie. *)
Fixpoint shortest (fuel k len : nat) (x : Z) : Z :=
  match fuel with
  | 0 => x
  | S fuel =>
      let unit := (10 ^ Z.of_nat (len - k))%Z in
      let lo := (x / unit * unit)%Z in
      let hi := (lo + unit)%Z in
      let fits v := (round_double v =? x)%Z in
      if fits lo && fits hi then
        if (x - lo <? hi - x)%Z then lo
        else if (hi - x <? x - lo)%Z then hi
        else if Z.even (lo / unit) then lo else hi
      else if fits lo then lo
      else if fits hi then hi
      else shortest fuel (S k) len x
  end.

(** [v] without its final zeros. *)
Fixpoint significand (fuel : nat) (v : Z) : Z :=
  match fuel with
  | 0 => v
  | S fuel => if (v mod 10 =? 0)%Z then significand fuel (v / 10)%Z else v
  end.

(** The integer that the text of the double [x >= 0] denotes. *)
Definition printed (x : Z) : Z :=
  let len := String.length (pretty x) in
  shortest len 1 len x.

(** [Number::toString] of a double [x > 0] that is an integer: the digits
    of the shortest decimal, in full up to 21 digits and in exponent form
    from 1e21. *)
Definition decimal (x : Z) : string :=
  let v := printed x in
  let n := String.length (pretty v) in
  if Nat.leb n 21 then pretty v
  else
    match pretty (significand n v) with
    | String d rest =>
        String d (if String.eqb rest "" then "" else "." +:+ rest)
          +:+ "e+" +:+ pretty (n - 1)
    | EmptyString => ""
    end.

Definition number_to_string (x : number) : string :=
  match x with
  | NaN => "NaN"
  | Infinity negative => if negative then "-Infinity" else "Infinity"
  | Finite n =>
      if (n =? 0)%Z then "0"
      else (if (n <? 0)%Z then "-" else "") +:+ decimal (Z.abs n)
  end.

(** [String(v)], the conversion a template literal and [parseInt] apply. *)
Fixpoint to_string (v : value) : string :=
  match v with
  | VUndefined => "undefined"
  | VNull => "null"
  | VBool b => if b then "true" else "false"
  | VNum n => number_to_string (number_of n)
  | VStr s => s
  | VArr l =>
      join_comma
        (List.map (fun e => if nullish e then "" else to_string e) l)
  | VObj _ => "[object Object]"
  end.

(** A thrown [Error]; only its [message] is ever read. *)
Record error := Error { message : string }.

Inductive outcome (A : Type) :=
  | Ok (a : A)
  | Throw (e : error).
Arguments Ok {A} a.
Arguments Throw {A} e.

(** [v.name] for a name that no prototype defines ([content], [text],
    [userEmail], ...): own property of an object, [undefined] on any other
    value, a [TypeError] on [null] and [undefined]. *)
Definition get_field (v : value) (name : string) : outcome value :=
  match v with
  | VUndefined =>
      Throw (Error ("Cannot read properties of undefined (reading '" +:+ name +:+ "')"))
  | VNull =>
      Throw (Error ("Cannot read properties of null (reading '" +:+ name +:+ "')"))
  | VObj fields => Ok (default VUndefined (fields !! name))
  | _ => Ok VUndefined
  end.

(** [v[i]] on a value that is not [null] or [undefined].  Of a string it is
    the character at [i], one byte here: the source reads of it the property
    [text] only, which no string has. *)
Definition get_index (v : value) (i : nat) : value :=
  match v with
  | VArr l => default VUndefined (l !! i)
  | VStr s =>
      match String.get i s with
      | Some c => VStr (String c EmptyString)
      | None => VUndefined
      end
  | VObj fields => default VUndefined (fields !! pretty i)
  | _ => VUndefined
  end.

(** *** [parseInt] with no radix argument *)

(** The white space and the line terminators of one byte: U+0009 to U+000D
    and U+0020. *)
Definition is_white (c : ascii) : bool :=
  let n := nat_of_ascii c in
  (Nat.leb 9 n && Nat.leb n 13) || Nat.eqb n 32.

(** Of two bytes: U+00A0. *)
Definition is_white2 (a b : ascii) : bool :=
  Nat.eqb (nat_of_ascii a) 194 && Nat.eqb (nat_of_ascii b) 160.

(** Of three bytes: U+1680, U+2000 to U+200A, U+2028, U+2029, U+202F,
    U+205F, U+3000 and U+FEFF. *)
Definition is_white3 (a b c : ascii) : bool :=
  let a := nat_of_ascii a in
  let b := nat_of_ascii b in
  let c := nat_of_ascii c in
  (Nat.eqb a 225 && Nat.eqb b 154 && Nat.eqb c 128)
  || (Nat.eqb a 226 && Nat.eqb b 128
      && ((Nat.leb 128 c && Nat.leb c 138)
          || Nat.eqb c 168 || Nat.eqb c 169 || Nat.eqb c 175))
  || (Nat.eqb a 226 && Nat.eqb b 129 && Nat.eqb c 159)
  || (Nat.eqb a 227 && Nat.eqb b 128 && Nat.eqb c 128)
  || (Nat.eqb a 239 && Nat.eqb b 187 && Nat.eqb c 191).

Fixpoint skip_white (s : string) : string :=
  match s with
  | String a rest =>
      if is_white a then skip_white rest
      else
        match rest with
        | String b rest2 =>
            if is_white2 a b then skip_white rest2
            else
              match rest2 with
              | String c rest3 =>
                  if is_white3 a b c then skip_white rest3 else s
              | EmptyString => s
              end
        | EmptyString => s
        end
  | EmptyString => s
  end.

Definition digit_value (c : ascii) : option Z :=
  let n := nat_of_ascii c in
  if Nat.leb 48 n && Nat.leb n 57 then Some (Z.of_nat (n - 48))
  else if Nat.leb 97 n && Nat.leb n 122 then Some (Z.of_nat (n - 87))
  else if Nat.leb 65 n && Nat.leb n 90 then Some (Z.of_nat (n - 55))
  else None.

(** The longest prefix of digits below [radix]; [None] when it is empty. *)
Fixpoint digits (radix : Z) (acc : option Z) (s : string) : option Z :=
  match s with
  | EmptyString => acc
  | String c rest =>
      match digit_value c with
      | Some d =>
          if (d <? radix)%Z
          then digits radix (Some (default 0%Z acc * radix + d)%Z) rest
          else acc
      | None => acc
      end
  end.

(** The result is the Number value for the integer the digits denote. *)
Definition parseInt (v : value) : number :=
  let s := skip_white (to_string v) in
  let '(sign, s) :=
    match s with
    | String "-"%char rest => ((-1)%Z, rest)
    | String "+"%char rest => (1%Z, rest)
    | _ => (1%Z, s)
    end in
  let '(radix, s) :=
    match s with
    | String "0"%char (String "x"%char rest) => (16%Z, rest)
    | String "0"%char (String "X"%char rest) => (16%Z, rest)
    | _ => (10%Z, s)
    end in
  match digits radix None s with
  | Some n => number_of (sign * n)
  | None => NaN
  end.

End Js.
Export Js.


(** ** Configuration and the outside world *)

(** A message of the conversation: a row of [SELECT role, content], or the
    entry the chat handler appends. *)
Record msg := Msg { role : string; content : value }.

(** What [callLLM] hands to [fetch]: the URL, the [x-api-key] header and the
    fields of the JSON body. *)
Record llm_request := LlmRequest {
  url : string;
  x_api_key : string;
  model : string;
  max_tokens : Z;
  system : string;
  api_messages : list msg;
}.

(** An HTTP response of the provider: [response.status], what
    [response.text()] resolves to, and what [response.json()] resolves to
    ([None] when the body is not JSON and the promise rejects). *)
Record http_response := HttpResponse {
  resp_status : Z;
  resp_text : string;
  resp_json : option value;
}.

Inductive fetch_result :=
  | FetchFailed (reason : string)
  | FetchResponse (r : http_response).

(** [process.env.NAME] *)
Definition process_env := gmap string string.

(** Truthiness of a value that is a string or [undefined], such as
    [process.env.NAME] or a request header. *)
Definition env_truthy (v : option string) : bool :=
  match v with
  | Some s => negb (String.eqb s "")
  | None => false
  end.

Record config := Config {
  BOCHAT_API_KEY : option string;
  LLM_API_KEY : option string;
  LLM_API_URL : string;
  LLM_MODEL : string;
  DATABASE_URL : option string;
}.

(** The [CONFIG] object of the source ([ALLOWED_ORIGINS] belongs to the CORS
    middleware and is left out). *)
Definition CONFIG (env : process_env) : config :=
  {| BOCHAT_API_KEY := env !! "BOCHAT_API_KEY";
     LLM_API_KEY :=
       if env_truthy (env !! "LLM_API_KEY") then env !! "LLM_API_KEY"
       else env !! "ANTHROPIC_API_KEY";
     LLM_API_URL :=
       if env_truthy (env !! "LLM_API_URL") then default "" (env !! "LLM_API_URL")
       else "https://api.anthropic.com/v1/messages";
     LLM_MODEL :=
       if env_truthy (env !! "LLM_MODEL") then default "" (env !! "LLM_MODEL")
       else "claude-sonnet-4-20250514";
     DATABASE_URL := env !! "DATABASE_URL" |}.

(** The collaborators the source imports or calls, fixed for a run:
    - [env]: [process.env] after [dotenv.config()];
    - [BO_SYSTEM_PROMPT]: the persona text, a constant of the source;
    - [uuid_of n]: what the [n]-th call of [uuidv4()] returns;
    - [pg_object_text v]: the text the [pg] driver sends for a query
      parameter that is an array or an object;
    - [provider n req]: what [fetch] answers to the [n]-th request. *)
Record externals := Externals {
  env : process_env;
  BO_SYSTEM_PROMPT : string;
  uuid_of : nat -> string;
  pg_object_text : value -> string;
  provider : nat -> llm_request -> fetch_result;
}.

(** ** The store *)

Record thread_row := ThreadRow {
  t_id : string;
  t_user_email : option string;
  t_title : option string;
  t_created_at : Z;
  t_updated_at : Z;
}.

Record message_row := MessageRow {
  m_id : string;
  m_thread_id : option string;
  m_role : string;
  m_content : string;
  m_created_at : Z;
}.

Record database := Database {
  threads : list thread_row;
  messages : list message_row;
}.

(** A row of [SELECT id, title, created_at, updated_at FROM threads]. *)
Record thread_summary := ThreadSummary {
  ts_id : string;
  ts_title : option string;
  ts_created_at : Z;
  ts_updated_at : Z;
}.

(** A row of [SELECT role, content, created_at FROM messages]. *)
Record message_view := MessageView {
  mv_role : string;
  mv_content : string;
  mv_created_at : Z;
}.

(** The text the driver sends for a query parameter; [None] is SQL NULL. *)
Definition pg_param (E : externals) (v : value) : option string :=
  match v with
  | VUndefined | VNull => None
  | VStr s => Some s
  | VBool _ | VNum _ => Some (to_string v)
  | VArr _ | VObj _ => Some (pg_object_text E v)
  end.

(** [ORDER BY created_at ASC] and [ORDER BY updated_at DESC]. *)
Definition created_le (a b : message_row) : Prop :=
  (m_created_at a <= m_created_at b)%Z.
Definition updated_ge (a b : thread_row) : Prop :=
  (t_updated_at b <= t_updated_at a)%Z.

#[global] Instance created_le_dec : RelDecision created_le :=
  fun a b => Z.le_dec (m_created_at a) (m_created_at b).
#[global] Instance updated_ge_dec : RelDecision updated_ge :=
  fun a b => Z.le_dec (t_updated_at b) (t_updated_at a).

(** The columns [role, content] of a message, as the chat handler reads
    them. *)
Definition as_msg (m : message_row) : msg := Msg (m_role m) (VStr (m_content m)).

(** The columns [role, content, created_at] of a message. *)
Definition as_view (m : message_row) : message_view :=
  MessageView (m_role m) (m_content m) (m_created_at m).

(** The columns [id, title, created_at, updated_at] of a thread. *)
Definition as_summary (t : thread_row) : thread_summary :=
  ThreadSummary (t_id t) (t_title t) (t_created_at t) (t_updated_at t).

Module Sql.

(** A statement runs at a server time on a database and either raises or
    yields its rows and the database it leaves. *)
Definition statement (A : Type) := Z -> database -> outcome (A * database).

(** The [CREATE TABLE IF NOT EXISTS ...; CREATE INDEX IF NOT EXISTS ...]
    batch of [getDb].  It creates the tables and indexes that are missing and
    reads or writes no row; a [database] being the rows, it is returned as
    it is. *)
Definition create_schema : statement unit :=
  fun _ d => Ok (tt, d).

(** *** Columns of type [VARCHAR(n)] *)

(** A byte [10xxxxxx] continues a character; every other byte starts one. *)
Definition continuation (c : ascii) : bool :=
  let n := nat_of_ascii c in
  Nat.leb 128 n && Nat.ltb n 192.

(** The number of characters of a text. *)
Fixpoint char_length (s : string) : nat :=
  match s with
  | EmptyString => 0
  | String c rest =>
      if continuation c then char_length rest else S (char_length rest)
  end.

(** The first [n] characters of a text, and what follows them. *)
Fixpoint split_chars (n : nat) (s : string) : string * string :=
  match s with
  | EmptyString => (EmptyString, EmptyString)
  | String c rest =>
      if continuation c then
        let '(kept, excess) := split_chars n rest in (String c kept, excess)
      else
        match n with
        | 0 => (EmptyString, s)
        | S n' =>
            let '(kept, excess) := split_chars n' rest in (String c kept, excess)
        end
  end.

Fixpoint all_spaces (s : string) : bool :=
  match s with
  | EmptyString => true
  | String c rest => Nat.eqb (nat_of_ascii c) 32 && all_spaces rest
  end.

(** The value stored for a text assigned to a [VARCHAR(n)] column: the text
    when it has at most [n] characters; its first [n] characters when the
    rest is spaces; otherwise the engine raises. *)
Definition varchar (n : nat) (s : string) : outcome string :=
  let '(kept, excess) := split_chars n s in
  if all_spaces excess then Ok kept
  else Throw (Error ("value too long for type character varying(" +:+ pretty n +:+ ")")).

(** The same for a parameter that may be NULL. *)
Definition column (n : nat) (v : option string) : outcome (option string) :=
  match v with
  | None => Ok None
  | Some s =>
      match varchar n s with
      | Ok kept => Ok (Some kept)
      | Throw e => Throw e
      end
  end.

Definition thread_exists (d : database) (id : string) : bool :=
  bool_decide (Exists (fun t => t_id t = id) (threads d)).

Definition message_exists (d : database) (id : string) : bool :=
  bool_decide (Exists (fun m => m_id m = id) (messages d)).

(** [SELECT * FROM threads WHERE id = $1] *)
Definition select_thread (id : option string) : statement (list thread_row) :=
  fun _ d => Ok (filter (fun t => Some (t_id t) = id) (threads d), d).

(** The rows of [... FROM messages WHERE thread_id = $1 ORDER BY created_at
    ASC], before projection. *)
Definition thread_messages (d : database) (id : option string) : list message_row :=
  match id with
  | Some tid =>
      merge_sort created_le (filter (fun m => m_thread_id m = Some tid) (messages d))
  | None => []
  end.

(** [SELECT role, content FROM messages WHERE thread_id = $1 ORDER BY
    created_at ASC] *)
Definition select_messages (id : option string) : statement (list msg) :=
  fun _ d =>
    Ok (List.map as_msg (thread_messages d id), d).

(** [SELECT role, content, created_at FROM messages WHERE thread_id = $1
    ORDER BY created_at ASC] *)
Definition select_messages_dated (id : option string) : statement (list message_view) :=
  fun _ d =>
    Ok (List.map as_view (thread_messages d id), d).

(** [INSERT INTO threads (id, user_email) VALUES ($1, $2) ON CONFLICT (id) DO
    NOTHING], on the columns [id VARCHAR(64) PRIMARY KEY] and [user_email
    VARCHAR(320)]: the two values are brought to their columns first, then
    the row is checked and inserted. *)
Definition insert_thread (id user_email : option string) : statement unit :=
  fun t d =>
    match column 64 id with
    | Throw e => Throw e
    | Ok id =>
        match column 320 user_email with
        | Throw e => Throw e
        | Ok user_email =>
            match id with
            | None =>
                Throw (Error "null value in column id of relation threads violates not-null constraint")
            | Some id =>
                if thread_exists d id then Ok (tt, d)
                else Ok (tt, Database (threads d ++ [ThreadRow id user_email None t t])
                               (messages d))
            end
        end
    end.

(** [INSERT INTO messages (id, thread_id, role, content) VALUES ($1, $2, $3,
    $4)]: [id] is the primary key, [thread_id] references [threads(id)],
    [role] and [content] are [NOT NULL].  The limits of [thread_id
    VARCHAR(64)] and [role VARCHAR(20)] are not applied: the source passes
    the roles [user] and [assistant], and [thread_id] is compared as it is
    with the [id]s of [threads]. *)
Definition insert_message (id : string) (thread_id : option string)
    (role : string) (content : option string) : statement unit :=
  fun t d =>
    match content with
    | None =>
        Throw (Error "null value in column content of relation messages violates not-null constraint")
    | Some content =>
        if message_exists d id then
          Throw (Error "duplicate key value violates unique constraint messages_pkey")
        else if match thread_id with
                | Some tid => thread_exists d tid
                | None => true
                end
        then Ok (tt, Database (threads d)
                       (messages d ++ [MessageRow id thread_id role content t]))
        else Throw (Error "insert or update on table messages violates foreign key constraint messages_thread_id_fkey")
    end.

(** [UPDATE threads SET updated_at = NOW() WHERE id = $1] *)
Definition touch_thread (id : option string) : statement unit :=
  fun t d =>
    Ok (tt, Database
              (List.map (fun r =>
                 if bool_decide (Some (t_id r) = id)
                 then ThreadRow (t_id r) (t_user_email r) (t_title r) (t_created_at r) t
                 else r) (threads d))
              (messages d)).

(** The rows of [... FROM threads WHERE user_email = $1 ORDER BY updated_at
    DESC], before [LIMIT] and projection. *)
Definition user_threads (d : database) (user_email : option string) : list thread_row :=
  match user_email with
  | Some u =>
      merge_sort updated_ge (filter (fun t => t_user_email t = Some u) (threads d))
  | None => []
  end.

(** [SELECT id, title, created_at, updated_at FROM threads WHERE user_email =
    $1 ORDER BY updated_at DESC LIMIT $2].  The driver sends the limit as
    the text of the Number and the engine reads that text as a [bigint]: it
    rejects [NaN], [Infinity] and the exponent form (from 1e21), then an
    integer outside -2^63 .. 2^63 - 1, then a negative limit. *)
Definition select_user_threads (user_email : option string) (limit : number)
    : statement (list thread_summary) :=
  fun _ d =>
    match limit with
    | NaN | Infinity _ =>
        Throw (Error ("invalid input syntax for type bigint: " +:+ number_to_string limit))
    | Finite n =>
        let v := (Z.sgn n * printed (Z.abs n))%Z in
        if (10 ^ 21 <=? Z.abs v)%Z then
          Throw (Error ("invalid input syntax for type bigint: " +:+ number_to_string limit))
        else if (v <? -9223372036854775808)%Z || (9223372036854775807 <? v)%Z then
          Throw (Error "value is out of range for type bigint")
        else if (v <? 0)%Z then Throw (Error "LIMIT must not be negative")
        else
          Ok (List.map as_summary (take (Z.to_nat v) (user_threads d user_email)), d)
    end.

End Sql.

(** ** The server state and the monad of [async] code *)

(** One step of the outside world per [db.query]: whether the statement
    raises before it runs (connection lost, statement rejected), and the time
    elapsed on the store's clock since the previous statement. *)
Record db_step := DbStep {
  raises : option string;
  elapsed : N;
}.

Record state := State {
  pool : bool;                    (* [pool !== null] *)
  store : database;               (* the PostgreSQL database *)
  now : Z;                        (* the store's clock, [NOW()] *)
  script : list db_step;          (* the steps to come; none left: no fault *)
  uuids : nat;                    (* calls of [uuidv4()] so far *)
  llm_calls : list llm_request;   (* requests sent to the provider so far *)
  console : list string;          (* lines written by console.log/warn/error *)
}.

Definition M (A : Type) : Type := state -> outcome A * state.

Definition ret {A} (a : A) : M A := fun s => (Ok a, s).

Definition throw {A} (e : error) : M A := fun s => (Throw e, s).

Definition bind {A B} (c : M A) (k : A -> M B) : M B :=
  fun s =>
    match c s with
    | (Ok a, s') => k a s'
    | (Throw e, s') => (Throw e, s')
    end.

(** [try { c } catch (error) { handler(error) }] *)
Definition try_catch {A} (c : M A) (handler : error -> M A) : M A :=
  fun s =>
    match c s with
    | (Ok a, s') => (Ok a, s')
    | (Throw e, s') => handler e s'
    end.

Definition lift {A} (o : outcome A) : M A := fun s => (o, s).

Notation "'do' x <- c ;; k" := (bind c (fun x => k))
  (at level 10, x binder, c at level 99, k at level 200).

Definition set_pool (b : bool) (s : state) : state :=
  State b (store s) (now s) (script s) (uuids s) (llm_calls s) (console s).

Definition print (line : string) : M unit :=
  fun s =>
    (Ok tt, State (pool s) (store s) (now s) (script s) (uuids s) (llm_calls s)
              (console s ++ [line])).

(** [await db.query(...)]: the next step of the script decides whether the
    statement raises; otherwise it runs at the advanced clock. *)
Definition db_query {A} (stmt : Sql.statement A) : M A :=
  fun s =>
    let step := default (DbStep None 0) (head (script s)) in
    let t := (now s + Z.of_N (elapsed step))%Z in
    let after d :=
      State (pool s) d t (tail (script s)) (uuids s) (llm_calls s) (console s) in
    match raises step with
    | Some reason => (Throw (Error reason), after (store s))
    | None =>
        match stmt t (store s) with
        | Ok (a, d) => (Ok a, after d)
        | Throw e => (Throw e, after (store s))
        end
    end.

(** ** HTTP requests and responses *)

Record request := Request {
  headers : gmap string string;   (* [req.headers], names in lower case *)
  ip : string;                    (* [req.ip] *)
  body : gmap string value;       (* [req.body], a JSON object *)
  params : gmap string string;    (* [req.params] *)
  query : gmap string value;      (* [req.query] *)
}.

Inductive payload :=
  | ErrorBody (error : string) (details : option string)
  | ChatBody (reply : value) (threadId : value)
  | ThreadBody (threadId : value) (history : list message_view)
  | ThreadsBody (rows : list thread_summary).

Record response := Response {
  status : Z;
  json : payload;
}.

(** What [getOrCreateThread] resolves to. *)
Record thread := Thread {
  threadId : value;
  thread_history : list msg;
}.

(** ** The gateway *)

Section Gateway.

Variable E : externals.

Definition fallback_reply : string := "I hit a snag processing that. Try again?".

(** [uuidv4()] *)
Definition uuidv4 : M string :=
  fun s =>
    (Ok (uuid_of E (uuids s)),
     State (pool s) (store s) (now s) (script s) (S (uuids s)) (llm_calls s) (console s)).

(** [threadId || uuidv4()]: the generator is called only when the left
    operand is falsy. *)
Definition or_uuidv4 (threadId : value) : M value :=
  if truthy threadId then ret threadId
  else do id <- uuidv4;; ret (VStr id).

(** [getDb()]: resolves to [pool]; [true] stands for a pool object, [false]
    for [null]. *)
Definition getDb : M bool :=
  fun s =>
    if negb (pool s) && env_truthy (DATABASE_URL (CONFIG (env E))) then
      (do _ <- db_query Sql.create_schema;;
       do _ <- print "[Database] Connected and initialized";;
       ret true) (set_pool true s)
    else (Ok (pool s), s).

Definition getOrCreateThread (threadId userEmail : value) : M thread :=
  do db <- getDb;;
  if negb db then
    do id <- or_uuidv4 threadId;;
    ret (Thread id [])
  else
    do existing <-
      (if truthy threadId then
         do threadResult <- db_query (Sql.select_thread (pg_param E threadId));;
         if Nat.ltb 0 (length threadResult) then
           do messagesResult <- db_query (Sql.select_messages (pg_param E threadId));;
           ret (Some (Thread threadId messagesResult))
         else ret None
       else ret None);;
    match existing with
    | Some found => ret found
    | None =>
        do newThreadId <- or_uuidv4 threadId;;
        do _ <- db_query (Sql.insert_thread (pg_param E newThreadId) (pg_param E userEmail));;
        ret (Thread newThreadId [])
    end.

Definition saveMessage (threadId : value) (role : string) (content : value) : M unit :=
  do db <- getDb;;
  if negb db then ret tt
  else
    do id <- uuidv4;;
    do _ <- db_query (Sql.insert_message id (pg_param E threadId) role
                        (pg_param E content));;
    db_query (Sql.touch_thread (pg_param E threadId)).

Definition authenticateRequest (req : request) (next : M response) : M response :=
  let apiKey := headers req !! "x-bochat-api-key" in
  if negb (env_truthy apiKey) then
    ret (Response 401 (ErrorBody "Missing X-BOCHAT-API-KEY header" None))
  else if negb (bool_decide (apiKey = BOCHAT_API_KEY (CONFIG (env E)))) then
    do _ <- print ("[Auth] Invalid API key attempt from " +:+ ip req);;
    ret (Response 403 (ErrorBody "Invalid API key" None))
  else next.

(** [fetch(CONFIG.LLM_API_URL, ...)]: the request leaves the process and the
    provider answers, or the call fails. *)
Definition fetch (req : llm_request) : M http_response :=
  fun s =>
    let s' :=
      State (pool s) (store s) (now s) (script s) (uuids s) (llm_calls s ++ [req])
        (console s) in
    match provider E (length (llm_calls s)) req with
    | FetchFailed reason => (Throw (Error reason), s')
    | FetchResponse r => (Ok r, s')
    end.

(** [response.ok] *)
Definition ok (r : http_response) : bool :=
  (200 <=? resp_status r)%Z && (resp_status r <=? 299)%Z.

(** [m.role === 'user' ? 'user' : 'assistant'] *)
Definition api_role (r : string) : string :=
  if String.eqb r "user" then "user" else "assistant".

Definition api_message (m : msg) : msg := Msg (api_role (role m)) (content m).

(** [data.content?.[0]?.text] *)
Definition first_text (data : value) : outcome value :=
  match get_field data "content" with
  | Throw e => Throw e
  | Ok segments =>
      if nullish segments then Ok VUndefined
      else
        let first := get_index segments 0 in
        if nullish first then Ok VUndefined else get_field first "text"
  end.

(** The request [callLLM] builds: the URL, the key header and the JSON body
    with the persona text followed by the current user. *)
Definition completion_request (conversation : list msg) (userEmail : value)
    : llm_request :=
  let apiMessages := List.map api_message conversation in
  LlmRequest (LLM_API_URL (CONFIG (env E)))
    (default "" (LLM_API_KEY (CONFIG (env E))))
    (LLM_MODEL (CONFIG (env E)))
    4096
    (BO_SYSTEM_PROMPT E +:+ "

Current user: " +:+ to_string userEmail)
    apiMessages.

Definition callLLM (conversation : list msg) (userEmail : value) : M value :=
  if negb (env_truthy (LLM_API_KEY (CONFIG (env E)))) then
    throw (Error "LLM API key not configured")
  else
    do response <- fetch (completion_request conversation userEmail);;
    if negb (ok response) then
      do _ <- print ("[LLM] API error: " +:+ pretty (resp_status response) +:+ " - "
                       +:+ resp_text response);;
      throw (Error ("LLM API error: " +:+ pretty (resp_status response)))
    else
      match resp_json response with
      | None => throw (Error "Unexpected token in JSON")
      | Some data =>
          do text <- lift (first_text data);;
          ret (or_else text (VStr fallback_reply))
      end.

(** [req.body.name], [req.query.name] *)
Definition property (o : gmap string value) (name : string) : value :=
  default VUndefined (o !! name).

(** [process.env.NODE_ENV === 'development' ? error.message : undefined] *)
Definition details_of (e : error) : option string :=
  if bool_decide (env E !! "NODE_ENV" = Some "development") then Some (message e)
  else None.

(** Lines 232 to 242: the turn itself, once the request is validated. *)
Definition chat_turn (userEmail userMessage requested : value) : M response :=
  do thread <- getOrCreateThread requested userEmail;;
  let conversationHistory := thread_history thread ++ [Msg "user" userMessage] in
  do reply <- callLLM conversationHistory userEmail;;
  do _ <- saveMessage (threadId thread) "user" userMessage;;
  do _ <- saveMessage (threadId thread) "assistant" reply;;
  ret (Response 200 (ChatBody reply (threadId thread))).

(** The [catch] block of the chat handler. *)
Definition chat_catch (error : error) : M response :=
  do _ <- print ("[Chat] Error: " +:+ message error);;
  ret (Response 500
         (ErrorBody "Something went wrong on my end. Try again in a sec."
            (details_of error))).

(** The handler of [POST /v1/chat]. *)
Definition chat_handler (req : request) : M response :=
  try_catch
    (let userEmail := property (body req) "userEmail" in
     let userMessage := property (body req) "message" in
     let threadId := property (body req) "threadId" in
     if negb (truthy userMessage) || negb (is_string userMessage) then
       ret (Response 400 (ErrorBody "message is required and must be a string" None))
     else if negb (truthy userEmail) then
       ret (Response 400 (ErrorBody "userEmail is required" None))
     else chat_turn userEmail userMessage threadId)
    chat_catch.

(** The [catch] block of the two read handlers, which differ in the text
    they answer. *)
Definition threads_catch (text : string) (error : error) : M response :=
  do _ <- print ("[Threads] Error: " +:+ message error);;
  ret (Response 500 (ErrorBody text None)).

(** The handler of [GET /v1/threads/:threadId]. *)
Definition thread_handler (req : request) : M response :=
  try_catch
    (let threadId := from_option VStr VUndefined (params req !! "threadId") in
     do db <- getDb;;
     if negb db then ret (Response 200 (ThreadBody threadId []))
     else
       do messagesResult <- db_query (Sql.select_messages_dated (pg_param E threadId));;
       ret (Response 200 (ThreadBody threadId messagesResult)))
    (threads_catch "Failed to fetch thread").

(** [const { userEmail, limit = 20 } = req.query]: the default applies when
    the property is [undefined]. *)
Definition query_limit (req : request) : value :=
  match property (query req) "limit" with
  | VUndefined => VNum 20
  | v => v
  end.

(** The handler of [GET /v1/threads]. *)
Definition threads_handler (req : request) : M response :=
  try_catch
    (let userEmail := property (query req) "userEmail" in
     let limit := query_limit req in
     do db <- getDb;;
     if negb db || negb (truthy userEmail) then ret (Response 200 (ThreadsBody []))
     else
       do result <- db_query (Sql.select_user_threads (pg_param E userEmail) (parseInt limit));;
       ret (Response 200 (ThreadsBody result)))
    (threads_catch "Failed to fetch threads").

(** The routes, as registered with [app.post] and [app.get]. *)
Definition post_v1_chat (req : request) : M response :=
  authenticateRequest req (chat_handler req).

Definition get_v1_thread (req : request) : M response :=
  authenticateRequest req (thread_handler req).

Definition get_v1_threads (req : request) : M response :=
  authenticateRequest req (threads_handler req).

End Gateway.

(** ** Around the routes: the CORS allow-list and start-up *)

(** [s.split(',')]: never empty, no trimming. *)
Fixpoint split_comma (s : string) : list string :=
  match s with
  | EmptyString => [""]
  | String c rest =>
      if Ascii.eqb c ","%char then "" :: split_comma rest
      else
        match split_comma rest with
        | first :: others => String c first :: others
        | [] => [String c ""]
        end
  end.

(** [hay.includes(needle)] *)
Fixpoint includes (needle hay : string) : bool :=
  String.prefix needle hay ||
  match hay with
  | EmptyString => false
  | String _ rest => includes needle rest
  end.

(** [CONFIG.ALLOWED_ORIGINS]: the split of the variable when it is set (even
    to the empty string: an array is truthy), the two front-end origins
    otherwise. *)
Definition ALLOWED_ORIGINS (env : process_env) : list string :=
  match env !! "ALLOWED_ORIGINS" with
  | Some list => split_comma list
  | None => ["https://bochat.taptico.com"; "https://bochat.manus.space"]
  end.

(** [process.env.PORT || 3000], as the start-up line prints it. *)
Definition PORT (env : process_env) : string :=
  if env_truthy (env !! "PORT") then default "" (env !! "PORT") else "3000".

Section Periphery.

Variable E : externals.

(** The test of one entry of the allow-list; an entry is a string, never a
    [RegExp]. *)
Definition origin_matches (origin allowed : string) : bool :=
  String.eqb allowed origin || includes ".manus.computer" origin
  || includes ".manus.space" origin.

(** The [origin] function given to [cors]: it resolves when the request may
    proceed and throws [Not allowed by CORS] otherwise. *)
Definition cors_origin (origin : option string) : M unit :=
  if negb (env_truthy origin) then ret tt
  else
    let isAllowed :=
      existsb (origin_matches (default "" origin)) (ALLOWED_ORIGINS (env E)) in
    if isAllowed then ret tt
    else
      do _ <- print ("[CORS] Blocked origin: " +:+ default "" origin);;
      throw (Error "Not allowed by CORS").

(** The callback of [app.listen]: two lines on the console and a first
    [getDb()] whose rejection is caught and reported. *)
Definition on_listen : M unit :=
  do _ <- print ("[Bo Gateway] Running on port " +:+ PORT (env E));;
  do _ <- print ("[Bo Gateway] Environment: " +:+
                   (if env_truthy (env E !! "NODE_ENV")
                    then default "" (env E !! "NODE_ENV") else "development"));;
  try_catch (do _ <- getDb E;; ret tt)
    (fun err => print ("[Database] Initial connection failed: " +:+ message err)).

End Periphery.

(** ** A sample deployment *)

Module Sample.

Definition text_reply (text : value) : value :=
  VObj {[ "content" := VArr [VObj {[ "type" := VStr "text"; "text" := text ]}] ]}.

(** A provider that answers [pong], except to a conversation of more than
    three messages, which it refuses with status 529. *)
Definition pong (n : nat) (req : llm_request) : fetch_result :=
  if Nat.ltb 3 (length (api_messages req))
  then FetchResponse (HttpResponse 529 "{ overloaded }" None)
  else FetchResponse (HttpResponse 200 "{ ... }" (Some (text_reply (VStr "pong")))).

Definition uuid_n (n : nat) : string := "uuid-" +:+ pretty n.

Definition world (env : process_env) (provider : nat -> llm_request -> fetch_result)
    : externals :=
  Externals env "You are Bo." uuid_n (fun _ => "{}") provider.

Definition full_env : process_env :=
  {[ "BOCHAT_API_KEY" := "s3cret"; "LLM_API_KEY" := "sk-1";
     "DATABASE_URL" := "postgres://db/bo" ]}.

(** No [DATABASE_URL]: the degraded mode. *)
Definition bare_env : process_env :=
  {[ "BOCHAT_API_KEY" := "s3cret"; "LLM_API_KEY" := "sk-1" ]}.

(** No [BOCHAT_API_KEY]. *)
Definition keyless_env : process_env :=
  {[ "LLM_API_KEY" := "sk-1"; "DATABASE_URL" := "postgres://db/bo" ]}.

Definition db0 : database :=
  Database
    [ThreadRow "t-1" (Some "u@x.com") None 10 30;
     ThreadRow "t-2" (Some "u@x.com") None 20 30;
     ThreadRow "t-3" (Some "v@x.com") None 25 25;
     ThreadRow "t-4" (Some "u@x.com") None 26 40]
    [MessageRow "m-2" (Some "t-1") "assistant" "b" 12;
     MessageRow "m-1" (Some "t-1") "user" "a" 11;
     MessageRow "m-3" (Some "t-2") "user" "x" 21].

Definition boot (d : database) (steps : list db_step) : state :=
  State false d 100 steps 0 [] [].

Definition chat_request (key : option string) (fields : gmap string value) : request :=
  Request (from_option (fun k => {[ "x-bochat-api-key" := k ]}) ∅ key)
    "10.0.0.7" fields ∅ ∅.

Definition list_request (q : gmap string value) : request :=
  Request {[ "x-bochat-api-key" := "s3cret" ]} "10.0.0.7" ∅ ∅ q.

Definition hello (thread : value) : gmap string value :=
  {[ "userEmail" := VStr "u@x.com"; "message" := VStr "c"; "threadId" := thread ]}.

(** A provider whose answer has an empty text. *)
Definition mute (n : nat) (req : llm_request) : fetch_result :=
  FetchResponse (HttpResponse 200 "{ ... }" (Some (text_reply (VStr "")))).

(** A provider that refuses every request. *)
Definition overloaded (n : nat) (req : llm_request) : fetch_result :=
  FetchResponse (HttpResponse 529 "{ overloaded: upstream }" None).

(** A store that answers [n] statements and loses the connection at the
    next one. *)
Definition outage_after (n : nat) : list db_step :=
  replicate n (DbStep None 1) ++ [DbStep (Some "Connection terminated unexpectedly") 1].

(** The gateway fully configured, without a store, without a secret. *)
Definition gateway : externals := world full_env pong.
Definition stateless_gateway : externals := world bare_env pong.
Definition open_gateway : externals := world keyless_env pong.
Definition refused_gateway : externals := world full_env overloaded.

(** A valid chat request on a thread. *)
Definition turn_request (thread : value) : request :=
  chat_request (Some "s3cret") (hello thread).

(** A request whose key header is present and empty. *)
(** An identifier of 65 characters. *)
Definition long_id : string :=
  "thread-0123456789-0123456789-0123456789-0123456789-0123456789-abc".

Definition blank_key_request : request := chat_request (Some "") (hello VUndefined).

End Sample.

(** ** Vocabulary of the statements *)

(** The value of the [X-BOCHAT-API-KEY] header, if the request has one. *)
Definition api_key_header (req : request) : option string :=
  headers req !! "x-bochat-api-key".

(** The header carries a non-empty value equal to the configured secret. *)
Definition authenticated (E : externals) (req : request) : Prop :=
  exists k, api_key_header req = Some k /\ k <> "" /\
            BOCHAT_API_KEY (CONFIG (env E)) = Some k.

(** The request passes authentication and validation: the key matches, the
    [message] is the non-empty string [m] and [userEmail] is not empty. *)
Definition valid_chat (E : externals) (req : request) (m : string) : Prop :=
  authenticated E req /\ property (body req) "message" = VStr m /\ m <> "" /\
  truthy (property (body req) "userEmail") = true.

(** The two writes of a chat turn, in the order of the source. *)
Definition persist (E : externals) (th : thread) (userMessage reply : value)
    : M unit :=
  do _ <- saveMessage E (threadId th) "user" userMessage;;
  saveMessage E (threadId th) "assistant" reply.

(** The store is not configured, and so no pool was ever created. *)
Definition degraded (E : externals) (s : state) : Prop :=
  env_truthy (DATABASE_URL (CONFIG (env E))) = false /\ pool s = false.

(** No statement to come raises for a reason of the outside world. *)
Definition calm (s : state) : Prop :=
  Forall (fun step => raises step = None) (script s).

(** The store is configured and answers. *)
Definition available (E : externals) (s : state) : Prop :=
  env_truthy (DATABASE_URL (CONFIG (env E))) = true /\ calm s.

(** The foreign key of [messages]: every message of a thread refers to a row
    of [threads]. *)
Definition referential (d : database) : Prop :=
  forall m tid, m ∈ messages d -> m_thread_id m = Some tid ->
                Sql.thread_exists d tid = true.

(** A pool exists only if [DATABASE_URL] is set. *)
Definition pool_configured (E : externals) (s : state) : Prop :=
  pool s = true -> env_truthy (DATABASE_URL (CONFIG (env E))) = true.

(** The state after a line went to the console. *)
Definition logged (line : string) (s : state) : state :=
  State (pool s) (store s) (now s) (script s) (uuids s) (llm_calls s)
    (console s ++ [line]).

(** The state after a request left for the provider. *)
Definition sent (req : llm_request) (s : state) : state :=
  State (pool s) (store s) (now s) (script s) (uuids s) (llm_calls s ++ [req])
    (console s).

(** The state after one more call of [uuidv4()]. *)
Definition drawn (s : state) : state :=
  State (pool s) (store s) (now s) (script s) (S (uuids s)) (llm_calls s) (console s).

Definition unauthenticated : response :=
  Response 401 (ErrorBody "Missing X-BOCHAT-API-KEY header" None).

Definition forbidden : response :=
  Response 403 (ErrorBody "Invalid API key" None).

Definition apology (details : option string) : response :=
  Response 500 (ErrorBody "Something went wrong on my end. Try again in a sec." details).

(** The step of the outside world the next [db.query] meets. *)
Definition next_step (s : state) : db_step :=
  default (DbStep None 0) (head (script s)).

(** The store's clock when the next statement runs. *)
Definition tick (s : state) : Z := (now s + Z.of_N (elapsed (next_step s)))%Z.

(** The state after one [db.query] that left the database [d]. *)
Definition stepped (d : database) (s : state) : state :=
  State (pool s) d (tick s) (tail (script s)) (uuids s) (llm_calls s) (console s).

(** The state after [getDb()] resolved to a pool: as it was when the pool
    existed, else with the pool created and the schema batch run. *)
Definition connected (s : state) : state :=
  if pool s then s
  else logged "[Database] Connected and initialized"
         (stepped (store s) (set_pool true s)).

(** A computation leaves a component of the state as it found it. *)
Definition untouched {A X} (f : state -> X) (c : M A) : Prop :=
  forall s, f (c s).2 = f s.

(** Statements that only read. *)
Definition read_only {A} (stmt : Sql.statement A) : Prop :=
  forall t d a d', stmt t d = Ok (a, d') -> d' = d.

(** Statements that leave the [messages] table alone. *)
Definition keeps_messages {A} (stmt : Sql.statement A) : Prop :=
  forall t d a d', stmt t d = Ok (a, d') -> messages d' = messages d.

(** Statements that keep the foreign key. *)
Definition keeps_referential {A} (stmt : Sql.statement A) : Prop :=
  forall t d a d', referential d -> stmt t d = Ok (a, d') -> referential d'.

(** A property of the state that the console, the identifier generator, the
    provider log and the store's clock and script do not bear on. *)
Definition stable (P : state -> Prop) : Prop :=
  (forall line s, P s -> P (logged line s)) /\
  (forall s, P s -> P (drawn s)) /\
  (forall req s, P s -> P (sent req s)) /\
  (forall s, P s -> P (stepped (store s) s)).

(** [needle] occurs in [hay]. *)
Definition occurs_in (needle hay : string) : Prop :=
  exists before after, hay = before +:+ needle +:+ after.

(** The row of a thread after [UPDATE threads SET updated_at = stamp WHERE id
    = who]. *)
Definition touched (who : option string) (stamp : Z) (r : thread_row) : thread_row :=
  if bool_decide (Some (t_id r) = who)
  then ThreadRow (t_id r) (t_user_email r) (t_title r) (t_created_at r) stamp
  else r.

(** The columns of a thread that no statement of the source updates. *)
Definition thread_identity (t : thread_row)
    : string * option string * option string * Z :=
  (t_id t, t_user_email t, t_title t, t_created_at t).

(** The database [d'] holds every message of [d], unchanged and in place, and
    every thread of [d], in place and with its identity. *)
Definition extends (d d' : database) : Prop :=
  messages d `prefix_of` messages d' /\
  List.map thread_identity (threads d) `prefix_of` List.map thread_identity (threads d').

(** The primary keys: no two threads and no two messages share an [id]. *)
Definition keyed (d : database) : Prop :=
  NoDup (List.map t_id (threads d)) /\ NoDup (List.map m_id (messages d)).

(** Every timestamp of the store is in the past of its clock, and no thread
    was updated before it was created. *)
Definition dated (s : state) : Prop :=
  Forall (fun t => (t_created_at t <= t_updated_at t <= now s)%Z) (threads (store s)) /\
  Forall (fun m => (m_created_at m <= now s)%Z) (messages (store s)).

(** The text of a parameter has at most [n] characters; NULL has none. *)
Definition fits (n : nat) (text : option string) : Prop :=
  forall s, text = Some s -> Sql.char_length s <= n.

(** The text goes beyond its first [n] characters by more than spaces. *)
Definition overflows (n : nat) (text : string) : Prop :=
  Sql.all_spaces (Sql.split_chars n text).2 = false.

(** A step of a computation keeps a property of the state. *)
Definition keeps {A} (P : state -> Prop) (c : M A) : Prop :=
  forall s, P s -> P (c s).2.

(** * Properties *)

(** ** The monad *)

Section Monad.

Context {A B : Type}.
Implicit Types (c : M A) (k : A -> M B).

Lemma bind_ok c k s a s1 : c s = (Ok a, s1) -> bind c k s = k a s1.
Proof. unfold bind. now intros ->. Qed.

Lemma bind_throw c k s e s1 : c s = (Throw e, s1) -> bind c k s = (Throw e, s1).
Proof. unfold bind. now intros ->. Qed.

Lemma bind_ok_inv c k s b s' :
  bind c k s = (Ok b, s') ->
  exists a s1, c s = (Ok a, s1) /\ k a s1 = (Ok b, s').
Proof.
  unfold bind. destruct (c s) as [[a|e] s1]; intros H.
  - now exists a, s1.
  - discriminate.
Qed.

Lemma bind_throw_inv c k s e s' :
  bind c k s = (Throw e, s') ->
  c s = (Throw e, s') \/ exists a s1, c s = (Ok a, s1) /\ k a s1 = (Throw e, s').
Proof.
  unfold bind. destruct (c s) as [[a|e0] s1]; intros H.
  - right. now exists a, s1.
  - left. now inversion H.
Qed.

Lemma keeps_bind (P : state -> Prop) c k :
  keeps P c -> (forall a, keeps P (k a)) -> keeps P (bind c k).
Proof.
  intros Hc Hk s Hs. unfold bind. specialize (Hc s Hs).
  destruct (c s) as [[a|e] s1]; simpl in *; [now apply Hk | assumption].
Qed.

End Monad.

Lemma keeps_ret {A} (P : state -> Prop) (a : A) : keeps P (ret a).
Proof. now intros s Hs. Qed.

Lemma keeps_throw {A} (P : state -> Prop) e : keeps P (throw (A:=A) e).
Proof. now intros s Hs. Qed.

Lemma keeps_lift {A} (P : state -> Prop) (o : outcome A) : keeps P (lift o).
Proof. now intros s Hs. Qed.

Lemma keeps_try_catch {A} (P : state -> Prop) (c : M A) h :
  keeps P c -> (forall e, keeps P (h e)) -> keeps P (try_catch c h).
Proof.
  intros Hc Hh s Hs. unfold try_catch. specialize (Hc s Hs).
  destruct (c s) as [[a|e] s1]; simpl in *; [assumption | now apply Hh].
Qed.

(** ** Values *)

Lemma truthy_string s : truthy (VStr s) = true <-> s <> "".
Proof.
  simpl. destruct (String.eqb_spec s ""); simpl; split; intros; congruence.
Qed.

Lemma env_truthy_spec o :
  env_truthy o = true <-> exists k, o = Some k /\ k <> "".
Proof.
  destruct o as [k|]; simpl.
  - destruct (String.eqb_spec k ""); simpl; split.
    + discriminate.
    + intros (k' & [= <-] & Hk). contradiction.
    + intros _. now exists k.
    + reflexivity.
  - split; [discriminate | now intros (k & [=] & _)].
Qed.

Lemma env_truthy_false o :
  env_truthy o = false <-> o = None \/ o = Some "".
Proof.
  destruct o as [k|]; simpl.
  - destruct (String.eqb_spec k ""); simpl; split; intros H; subst; auto.
    + discriminate.
    + destruct H as [|[= ->]]; congruence.
  - split; auto.
Qed.

Lemma truthy_pg_param E v : truthy v = true -> is_Some (pg_param E v).
Proof. destruct v; simpl; intros; try discriminate; eauto. Qed.

Lemma api_role_user : api_role "user" = "user".
Proof. reflexivity. Qed.

Lemma api_role_other r : r <> "user" -> api_role r = "assistant".
Proof. unfold api_role. now destruct (String.eqb_spec r "user"). Qed.

Lemma api_role_closed r : api_role r = "user" \/ api_role r = "assistant".
Proof. unfold api_role. destruct (String.eqb r "user"); auto. Qed.

(** ** Authentication *)

Section Authentication.

Variable E : externals.
Implicit Types (req : request) (next : M response) (s : state).

Lemma authenticateRequest_missing req next s :
  env_truthy (api_key_header req) = false ->
  authenticateRequest E req next s = (Ok unauthenticated, s).
Proof.
  unfold authenticateRequest, api_key_header. now intros ->.
Qed.

Lemma authenticateRequest_mismatch req next s :
  env_truthy (api_key_header req) = true ->
  api_key_header req <> BOCHAT_API_KEY (CONFIG (env E)) ->
  authenticateRequest E req next s =
    (Ok forbidden, logged ("[Auth] Invalid API key attempt from " +:+ ip req) s).
Proof.
  unfold authenticateRequest, api_key_header. intros -> Hne. simpl.
  now rewrite bool_decide_eq_false_2.
Qed.

Lemma authenticateRequest_match req next s :
  authenticated E req -> authenticateRequest E req next s = next s.
Proof.
  intros (k & Hk & Hne & Hcfg).
  unfold authenticateRequest. fold (api_key_header req). rewrite Hk, Hcfg.
  assert (env_truthy (Some k) = true) as -> by (apply env_truthy_spec; eauto).
  simpl. now rewrite bool_decide_eq_true_2.
Qed.

(** C6, as amended: a request whose key header is missing or empty is
    answered 401 and leaves the whole state as it was (no store access, no
    call to the provider); a non-empty header that differs from the
    configured secret is answered 403, the only effect being the console
    warning; a non-empty header equal to the secret hands the request to the
    next handler. *)
Theorem authenticateRequest_outcomes req next s :
  (api_key_header req = None \/ api_key_header req = Some "" ->
   authenticateRequest E req next s = (Ok unauthenticated, s)) /\
  (forall k, api_key_header req = Some k -> k <> "" ->
   BOCHAT_API_KEY (CONFIG (env E)) <> Some k ->
   authenticateRequest E req next s =
     (Ok forbidden, logged ("[Auth] Invalid API key attempt from " +:+ ip req) s)) /\
  (forall k, api_key_header req = Some k -> k <> "" ->
   BOCHAT_API_KEY (CONFIG (env E)) = Some k ->
   authenticateRequest E req next s = next s).
Proof.
  split; [| split].
  - intros H. apply authenticateRequest_missing. now apply env_truthy_false.
  - intros k Hk Hne Hcfg. apply authenticateRequest_mismatch.
    + apply env_truthy_spec. eauto.
    + rewrite Hk. congruence.
  - intros k Hk Hne Hcfg. apply authenticateRequest_match. now exists k.
Qed.

(** C9, as amended: when [BOCHAT_API_KEY] is not set, no request reaches the
    next handler: the answer is 401 or 403 whatever the handler is, and the
    store and the provider are left alone; it is 403 for every non-empty
    header value and 401 for a missing or empty header. *)
Theorem unset_secret_rejects_all req next s :
  BOCHAT_API_KEY (CONFIG (env E)) = None ->
  (exists r s', authenticateRequest E req next s = (Ok r, s') /\
                (r = unauthenticated \/ r = forbidden) /\
                store s' = store s /\ llm_calls s' = llm_calls s /\
                pool s' = pool s) /\
  (api_key_header req = None \/ api_key_header req = Some "" ->
   authenticateRequest E req next s = (Ok unauthenticated, s)) /\
  (forall k, api_key_header req = Some k -> k <> "" ->
   authenticateRequest E req next s =
     (Ok forbidden, logged ("[Auth] Invalid API key attempt from " +:+ ip req) s)).
Proof.
  intros Hcfg.
  assert (forall k, api_key_header req = Some k -> k <> "" ->
    authenticateRequest E req next s =
      (Ok forbidden, logged ("[Auth] Invalid API key attempt from " +:+ ip req) s))
    as Hbad.
  { intros k Hk Hne. apply authenticateRequest_mismatch.
    - apply env_truthy_spec. eauto.
    - rewrite Hk, Hcfg. discriminate. }
  assert (api_key_header req = None \/ api_key_header req = Some "" ->
    authenticateRequest E req next s = (Ok unauthenticated, s)) as Hnone.
  { intros H. apply authenticateRequest_missing. now apply env_truthy_false. }
  split; [| now split].
  destruct (api_key_header req) as [k|] eqn:Hk.
  - destruct (decide (k = "")) as [->|Hne].
    + exists unauthenticated, s. rewrite Hnone; auto.
    + eexists forbidden, _. rewrite (Hbad k); auto.
  - exists unauthenticated, s. rewrite Hnone; auto.
Qed.

End Authentication.

Lemma authenticateRequest_outcomes_witness :
  post_v1_chat Sample.gateway (Sample.chat_request None (Sample.hello VUndefined))
    (Sample.boot Sample.db0 []) = (Ok unauthenticated, Sample.boot Sample.db0 []) /\
  (post_v1_chat Sample.gateway (Sample.chat_request (Some "guess") (Sample.hello VUndefined))
     (Sample.boot Sample.db0 [])).1 = Ok forbidden /\
  post_v1_chat Sample.gateway (Sample.chat_request (Some "s3cret") (Sample.hello VUndefined))
    (Sample.boot Sample.db0 []) =
  chat_handler Sample.gateway (Sample.chat_request (Some "s3cret") (Sample.hello VUndefined))
    (Sample.boot Sample.db0 []).
Proof.
  unfold post_v1_chat. split; [| split].
  - apply (authenticateRequest_outcomes Sample.gateway). now left.
  - erewrite (proj1 (proj2 (authenticateRequest_outcomes Sample.gateway _ _ _)) "guess");
      [reflexivity | reflexivity | discriminate | discriminate].
  - apply (proj2 (proj2 (authenticateRequest_outcomes Sample.gateway _ _ _)) "s3cret");
      [reflexivity | discriminate | reflexivity].
Defined.

(** The header is present and differs from the secret, and the answer is 401,
    not 403. *)
Lemma blank_key_header_answered_401 :
  api_key_header Sample.blank_key_request = Some "" /\
  BOCHAT_API_KEY (CONFIG (env Sample.gateway)) = Some "s3cret" /\
  post_v1_chat Sample.gateway Sample.blank_key_request (Sample.boot Sample.db0 []) =
    (Ok (Response 401 (ErrorBody "Missing X-BOCHAT-API-KEY header" None)),
     Sample.boot Sample.db0 []).
Proof. repeat split. Qed.

Lemma unset_secret_rejects_all_witness :
  BOCHAT_API_KEY (CONFIG (env Sample.open_gateway)) = None /\
  (post_v1_chat Sample.open_gateway
     (Sample.chat_request (Some "anything") (Sample.hello VUndefined))
     (Sample.boot Sample.db0 [])).1 = Ok forbidden.
Proof.
  split; [reflexivity |]. unfold post_v1_chat.
  erewrite (proj2 (proj2 (unset_secret_rejects_all Sample.open_gateway _ _ _ eq_refl))
              "anything"); [reflexivity | reflexivity | discriminate].
Defined.

(** With no secret configured, a request that carries the header with the
    empty value is answered 401, not 403. *)
Lemma unset_secret_blank_header_answered_401 :
  BOCHAT_API_KEY (CONFIG (env Sample.open_gateway)) = None /\
  api_key_header Sample.blank_key_request = Some "" /\
  (post_v1_chat Sample.open_gateway Sample.blank_key_request
     (Sample.boot Sample.db0 [])).1 =
    Ok (Response 401 (ErrorBody "Missing X-BOCHAT-API-KEY header" None)).
Proof. repeat split. Qed.

(** ** Validation of a chat request *)

(** Splits a hypothesis [bind c k s = (Ok b, s')] into the two runs. *)
Ltac bind_inv H :=
  let a := fresh "a" in
  let s1 := fresh "s" in
  let Hc := fresh "Hc" in
  apply bind_ok_inv in H as (a & s1 & Hc & H).

Section Validation.

Variable E : externals.
Implicit Types (req : request) (s : state).

Lemma chat_turn_status userEmail userMessage requested s r s' :
  chat_turn E userEmail userMessage requested s = (Ok r, s') -> status r = 200%Z.
Proof.
  unfold chat_turn. intros H.
  bind_inv H. bind_inv H. bind_inv H. bind_inv H.
  unfold ret in H. now inversion H.
Qed.

Lemma chat_catch_run e s :
  chat_catch E e s =
    (Ok (apology (details_of E e)), logged ("[Chat] Error: " +:+ message e) s).
Proof. reflexivity. Qed.

Lemma chat_handler_rejects_message req s :
  ~ (exists m, property (body req) "message" = VStr m /\ m <> "") ->
  chat_handler E req s =
    (Ok (Response 400 (ErrorBody "message is required and must be a string" None)), s).
Proof.
  intros Hno. unfold chat_handler, try_catch.
  destruct (property (body req) "message") as [| |b|n|m|l|o] eqn:Hm;
    try (simpl; rewrite ?orb_true_r; reflexivity).
  destruct (truthy (VStr m)) eqn:Ht; [| reflexivity].
  exfalso. apply Hno. exists m. split; [reflexivity | now apply truthy_string].
Qed.

Lemma chat_handler_rejects_email req s :
  truthy (property (body req) "userEmail") = false ->
  exists text,
    chat_handler E req s = (Ok (Response 400 (ErrorBody text None)), s).
Proof.
  intros Hu. unfold chat_handler, try_catch.
  destruct (negb (truthy (property (body req) "message"))
            || negb (is_string (property (body req) "message"))).
  - eexists. reflexivity.
  - rewrite Hu. eexists. reflexivity.
Qed.

Lemma chat_handler_accepts req s m :
  property (body req) "message" = VStr m -> m <> "" ->
  truthy (property (body req) "userEmail") = true ->
  chat_handler E req s =
    try_catch
      (chat_turn E (property (body req) "userEmail") (VStr m)
         (property (body req) "threadId"))
      (chat_catch E) s.
Proof.
  intros Hm Hne Hu. unfold chat_handler, try_catch. rewrite Hm, Hu.
  apply truthy_string in Hne. now rewrite Hne.
Qed.

(** C7: an authenticated chat request whose [message] is not a non-empty
    string, or whose [userEmail] is empty (falsy: absent, [null], the empty
    string), is answered 400 with the state untouched, so before any store or
    network access; a request with a non-empty string [message] and a
    non-empty [userEmail] passes validation: the route runs the chat turn and
    its answer is not a 400. *)
Theorem chat_validation req s :
  authenticated E req ->
  ((~ (exists m, property (body req) "message" = VStr m /\ m <> "") \/
    truthy (property (body req) "userEmail") = false) ->
   exists text,
     post_v1_chat E req s = (Ok (Response 400 (ErrorBody text None)), s)) /\
  (forall m,
     property (body req) "message" = VStr m -> m <> "" ->
     truthy (property (body req) "userEmail") = true ->
     post_v1_chat E req s =
       try_catch
         (chat_turn E (property (body req) "userEmail") (VStr m)
            (property (body req) "threadId"))
         (chat_catch E) s /\
     exists r s', post_v1_chat E req s = (Ok r, s') /\ status r <> 400%Z).
Proof.
  intros Hauth. unfold post_v1_chat.
  rewrite (authenticateRequest_match E req _ s Hauth). split.
  - intros [Hm | Hu].
    + eexists. now apply chat_handler_rejects_message.
    + now apply chat_handler_rejects_email.
  - intros m Hm Hne Hu.
    rewrite (chat_handler_accepts req s m Hm Hne Hu). split; [reflexivity |].
    unfold try_catch.
    destruct (chat_turn E _ _ _ s) as [[r|e] s1] eqn:Hturn.
    + exists r, s1. split; [reflexivity |].
      rewrite (chat_turn_status _ _ _ _ _ _ Hturn). discriminate.
    + rewrite chat_catch_run. eexists _, _. split; [reflexivity |]. discriminate.
Qed.

End Validation.

Lemma chat_validation_witness :
  (exists text,
     post_v1_chat Sample.gateway
       (Sample.chat_request (Some "s3cret")
          {[ "userEmail" := VStr "u@x.com"; "message" := VNum 7 ]})
       (Sample.boot Sample.db0 []) =
     (Ok (Response 400 (ErrorBody text None)), Sample.boot Sample.db0 [])) /\
  (exists r s',
     post_v1_chat Sample.gateway
       (Sample.chat_request (Some "s3cret") (Sample.hello (VStr "t-1")))
       (Sample.boot Sample.db0 []) = (Ok r, s') /\ status r <> 400%Z).
Proof.
  assert (forall fields,
    authenticated Sample.gateway (Sample.chat_request (Some "s3cret") fields)) as Hauth.
  { intros fields. exists "s3cret". repeat split. discriminate. }
  split.
  - apply (chat_validation Sample.gateway _ _ (Hauth _)). left.
    intros (m & Hm & _). discriminate Hm.
  - apply (proj2 (chat_validation Sample.gateway _ _ (Hauth _)) "c");
      [reflexivity | discriminate | reflexivity].
Defined.

(** ** The LLM proxy *)

Section Proxy.

Variable E : externals.
Implicit Types (conversation : list msg) (userEmail : value) (s : state).

Lemma callLLM_unconfigured conversation userEmail s :
  env_truthy (LLM_API_KEY (CONFIG (env E))) = false ->
  callLLM E conversation userEmail s = (Throw (Error "LLM API key not configured"), s).
Proof. unfold callLLM. now intros ->. Qed.

Lemma callLLM_unreachable conversation userEmail s reason :
  env_truthy (LLM_API_KEY (CONFIG (env E))) = true ->
  provider E (length (llm_calls s)) (completion_request E conversation userEmail)
    = FetchFailed reason ->
  callLLM E conversation userEmail s =
    (Throw (Error reason), sent (completion_request E conversation userEmail) s).
Proof.
  unfold callLLM. intros -> Hp. simpl. unfold bind, fetch. now rewrite Hp.
Qed.

Lemma callLLM_refused conversation userEmail s r :
  env_truthy (LLM_API_KEY (CONFIG (env E))) = true ->
  provider E (length (llm_calls s)) (completion_request E conversation userEmail)
    = FetchResponse r ->
  ok r = false ->
  callLLM E conversation userEmail s =
    (Throw (Error ("LLM API error: " +:+ pretty (resp_status r))),
     logged ("[LLM] API error: " +:+ pretty (resp_status r) +:+ " - " +:+ resp_text r)
       (sent (completion_request E conversation userEmail) s)).
Proof.
  unfold callLLM. intros -> Hp Hok. simpl. unfold bind, fetch.
  now rewrite Hp, Hok.
Qed.

Lemma callLLM_answered conversation userEmail s r data :
  env_truthy (LLM_API_KEY (CONFIG (env E))) = true ->
  provider E (length (llm_calls s)) (completion_request E conversation userEmail)
    = FetchResponse r ->
  ok r = true ->
  resp_json r = Some data ->
  callLLM E conversation userEmail s =
    (match first_text data with
     | Ok text => Ok (or_else text (VStr fallback_reply))
     | Throw e => Throw e
     end,
     sent (completion_request E conversation userEmail) s).
Proof.
  unfold callLLM. intros -> Hp Hok Hjson. simpl. unfold bind, fetch.
  rewrite Hp, Hok, Hjson. simpl. unfold lift.
  now destruct (first_text data).
Qed.

(** Every run of [callLLM] sends at most the one request it builds. *)
Lemma callLLM_calls conversation userEmail s :
  llm_calls (callLLM E conversation userEmail s).2 = llm_calls s \/
  llm_calls (callLLM E conversation userEmail s).2 =
    llm_calls s ++ [completion_request E conversation userEmail].
Proof.
  destruct (env_truthy (LLM_API_KEY (CONFIG (env E)))) eqn:Hkey.
  - right.
    destruct (provider E (length (llm_calls s))
                (completion_request E conversation userEmail)) as [reason|r] eqn:Hp.
    + now rewrite (callLLM_unreachable _ _ _ _ Hkey Hp).
    + destruct (ok r) eqn:Hok.
      * destruct (resp_json r) as [data|] eqn:Hjson.
        -- now rewrite (callLLM_answered _ _ _ _ _ Hkey Hp Hok Hjson).
        -- unfold callLLM. rewrite Hkey. simpl. unfold bind, fetch.
           now rewrite Hp, Hok, Hjson.
      * now rewrite (callLLM_refused _ _ _ _ Hkey Hp Hok).
  - left. now rewrite callLLM_unconfigured.
Qed.

(** A reply was computed only if the request was sent. *)
Lemma callLLM_ok_sent conversation userEmail s reply s' :
  callLLM E conversation userEmail s = (Ok reply, s') ->
  s' = sent (completion_request E conversation userEmail) s.
Proof.
  intros H.
  destruct (env_truthy (LLM_API_KEY (CONFIG (env E)))) eqn:Hkey.
  - destruct (provider E (length (llm_calls s))
                (completion_request E conversation userEmail)) as [reason|r] eqn:Hp.
    + rewrite (callLLM_unreachable _ _ _ _ Hkey Hp) in H. discriminate.
    + destruct (ok r) eqn:Hok.
      * destruct (resp_json r) as [data|] eqn:Hjson.
        -- rewrite (callLLM_answered _ _ _ _ _ Hkey Hp Hok Hjson) in H.
           now inversion H.
        -- unfold callLLM in H. rewrite Hkey in H. simpl in H.
           unfold bind, fetch in H. rewrite Hp, Hok, Hjson in H. discriminate.
      * rewrite (callLLM_refused _ _ _ _ Hkey Hp Hok) in H. discriminate.
  - rewrite callLLM_unconfigured in H by assumption. discriminate.
Qed.

(** C10: when the provider answers with a success status and the first
    segment of [content] has the empty string as its [text], [callLLM]
    resolves to the fallback sentence. *)
Theorem empty_text_gets_fallback conversation userEmail s r fields segment rest :
  env_truthy (LLM_API_KEY (CONFIG (env E))) = true ->
  provider E (length (llm_calls s)) (completion_request E conversation userEmail)
    = FetchResponse r ->
  ok r = true ->
  resp_json r = Some (VObj fields) ->
  fields !! "content" = Some (VArr (VObj segment :: rest)) ->
  segment !! "text" = Some (VStr "") ->
  (callLLM E conversation userEmail s).1 =
    Ok (VStr "I hit a snag processing that. Try again?").
Proof.
  intros Hkey Hp Hok Hjson Hcontent Htext.
  rewrite (callLLM_answered _ _ _ _ _ Hkey Hp Hok Hjson).
  unfold first_text. simpl. rewrite Hcontent. simpl. now rewrite Htext.
Qed.

(** The same holds when the segment or its text is absent. *)
Lemma absent_text_gets_fallback conversation userEmail s r fields :
  env_truthy (LLM_API_KEY (CONFIG (env E))) = true ->
  provider E (length (llm_calls s)) (completion_request E conversation userEmail)
    = FetchResponse r ->
  ok r = true ->
  resp_json r = Some (VObj fields) ->
  fields !! "content" = None \/ fields !! "content" = Some (VArr []) ->
  (callLLM E conversation userEmail s).1 = Ok (VStr fallback_reply).
Proof.
  intros Hkey Hp Hok Hjson Hcontent.
  rewrite (callLLM_answered _ _ _ _ _ Hkey Hp Hok Hjson).
  unfold first_text. simpl. now destruct Hcontent as [-> | ->].
Qed.

End Proxy.

Lemma empty_text_gets_fallback_witness :
  (callLLM (Sample.world Sample.full_env Sample.mute) [Msg "user" (VStr "hi")]
     (VStr "u@x.com") (Sample.boot Sample.db0 [])).1 =
    Ok (VStr "I hit a snag processing that. Try again?").
Proof.
  eapply (empty_text_gets_fallback (Sample.world Sample.full_env Sample.mute));
    reflexivity.
Defined.

(** ** Frames: what a computation leaves alone *)

Section Frames.

Context {X : Type} (f : state -> X).

Lemma untouched_ret {A} (a : A) : untouched f (ret a).
Proof. now intros s. Qed.

Lemma untouched_throw {A} e : untouched f (throw (A:=A) e).
Proof. now intros s. Qed.

Lemma untouched_lift {A} (o : outcome A) : untouched f (lift o).
Proof. now intros s. Qed.

Lemma untouched_bind {A B} (c : M A) (k : A -> M B) :
  untouched f c -> (forall a, untouched f (k a)) -> untouched f (bind c k).
Proof.
  intros Hc Hk s. unfold bind. specialize (Hc s).
  destruct (c s) as [[a|e] s1]; simpl in *; [| assumption].
  now rewrite Hk.
Qed.

Lemma untouched_try_catch {A} (c : M A) h :
  untouched f c -> (forall e, untouched f (h e)) -> untouched f (try_catch c h).
Proof.
  intros Hc Hh s. unfold try_catch. specialize (Hc s).
  destruct (c s) as [[a|e] s1]; simpl in *; [assumption |].
  now rewrite Hh.
Qed.

(** A component that ignores the console, the generator, the provider log,
    the pool flag or the store is untouched by the primitive that writes
    only there. *)
Lemma untouched_print line :
  (forall s, f (logged line s) = f s) -> untouched f (print line).
Proof. intros H s. apply H. Qed.

Lemma untouched_uuidv4 E :
  (forall s, f (drawn s) = f s) -> untouched f (uuidv4 E).
Proof. intros H s. apply H. Qed.

Lemma untouched_fetch E req :
  (forall s, f (sent req s) = f s) -> untouched f (fetch E req).
Proof.
  intros H s. unfold fetch.
  destruct (provider E (length (llm_calls s)) req); apply H.
Qed.

Lemma db_query_unfold {A} (stmt : Sql.statement A) s :
  db_query stmt s =
    match raises (next_step s) with
    | Some reason => (Throw (Error reason), stepped (store s) s)
    | None =>
        match stmt (tick s) (store s) with
        | Ok (a, d) => (Ok a, stepped d s)
        | Throw e => (Throw e, stepped (store s) s)
        end
    end.
Proof. reflexivity. Qed.

Lemma untouched_db_query {A} (stmt : Sql.statement A) :
  (forall s, f (stepped (store s) s) = f s) ->
  (forall s a d, stmt (tick s) (store s) = Ok (a, d) -> f (stepped d s) = f s) ->
  untouched f (db_query stmt).
Proof.
  intros Hsame Hrun s. rewrite db_query_unfold.
  destruct (raises (next_step s)); [apply Hsame |].
  destruct (stmt (tick s) (store s)) as [[a d]|e] eqn:Hstmt; [| apply Hsame].
  now apply (Hrun s a d).
Qed.

End Frames.

Lemma read_only_keeps_messages {A} (stmt : Sql.statement A) :
  read_only stmt -> keeps_messages stmt.
Proof. intros H t d a d' Hs. now rewrite (H t d a d' Hs). Qed.

Lemma create_schema_read_only : read_only Sql.create_schema.
Proof. intros t d a d' [= _ <-]. reflexivity. Qed.

Lemma select_thread_read_only id : read_only (Sql.select_thread id).
Proof. intros t d a d' [= _ <-]. reflexivity. Qed.

Lemma select_messages_read_only id : read_only (Sql.select_messages id).
Proof. intros t d a d' [= _ <-]. reflexivity. Qed.

Lemma select_messages_dated_read_only id : read_only (Sql.select_messages_dated id).
Proof. intros t d a d' [= _ <-]. reflexivity. Qed.

Lemma select_user_threads_read_only u limit :
  read_only (Sql.select_user_threads u limit).
Proof.
  intros t d a d'. unfold Sql.select_user_threads.
  destruct limit as [| b | n]; [discriminate | discriminate |].
  cbv zeta.
  destruct (10 ^ 21 <=? _)%Z; [discriminate |].
  destruct (_ || _); [discriminate |].
  destruct (_ <? 0)%Z; [discriminate |].
  now intros [= _ <-].
Qed.

(** *** Doubles that are integers *)

(** An integer below 2^53 is a double. *)
Lemma round_double_small v : (v < 2 ^ 53)%Z -> round_double v = v.
Proof.
  intros Hv. unfold round_double.
  now destruct (Z.ltb_spec v (2 ^ 53)) as [_ | ]; [| lia].
Qed.

(** From 2^53 on: the significand of 53 bits and what it is rounded to. *)
Lemma round_double_bounds v :
  (2 ^ 53 <= v)%Z ->
  (2 ^ 53 <= round_double v <= 2 ^ (Z.log2 v + 1))%Z.
Proof.
  intros Hv. unfold round_double.
  destruct (Z.ltb_spec v (2 ^ 53)) as [| _]; [lia |].
  assert (53 <= Z.log2 v)%Z as Hlog.
  { change 53%Z with (Z.log2 (2 ^ 53)). apply Z.log2_le_mono. exact Hv. }
  destruct (Z.log2_spec v) as [Hlo Hhi]; [lia |].
  set (e := (Z.log2 v - 52)%Z) in *.
  assert (1 <= e)%Z as He by (subst e; lia).
  assert (Z.log2 v = 52 + e)%Z as Hl by (subst e; lia).
  rewrite Hl in Hlo. replace (Z.succ (Z.log2 v)) with (53 + e)%Z in Hhi by lia.
  replace (Z.log2 v + 1)%Z with (53 + e)%Z by lia.
  rewrite Z.pow_add_r in Hlo, Hhi |- * by lia.
  assert (0 < 2 ^ e)%Z as Hpos by (apply Z.pow_pos_nonneg; lia).
  assert (2 <= 2 ^ e)%Z as Htwo.
  { change 2%Z with (2 ^ 1)%Z at 1. apply Z.pow_le_mono_r; lia. }
  assert (2 ^ 52 <= Z.shiftr v e < 2 ^ 53)%Z as Hq.
  { rewrite Z.shiftr_div_pow2 by lia. split.
    - apply Z.div_le_lower_bound; lia.
    - apply Z.div_lt_upper_bound; lia. }
  set (q := Z.shiftr v e) in *.
  destruct (_ || _); rewrite Z.shiftl_mul_pow2 by lia; nia.
Qed.

Lemma round_double_ge v : (2 ^ 53 <= v)%Z -> (2 ^ 53 <= round_double v)%Z.
Proof. intros Hv. now apply round_double_bounds. Qed.

(** Below 2^63 no integer rounds beyond 2^63. *)
Lemma round_double_below v : (v < 2 ^ 63)%Z -> (round_double v <= 2 ^ 63)%Z.
Proof.
  intros Hv. destruct (Z.lt_ge_cases v (2 ^ 53)) as [Hs | Hb].
  - rewrite (round_double_small v Hs). lia.
  - destruct (round_double_bounds v Hb) as [_ H].
    assert (Z.log2 v + 1 <= 63)%Z as Hlog.
    { assert (Z.log2 v < 63)%Z; [| lia]. apply Z.log2_lt_pow2; lia. }
    etransitivity; [exact H |]. apply Z.pow_le_mono_r; lia.
Qed.

(** What [shortest] returns is [x] or rounds to [x]. *)
Lemma shortest_rounds fuel k len x :
  shortest fuel k len x = x \/ round_double (shortest fuel k len x) = x.
Proof.
  revert k. induction fuel as [| fuel IH]; intros k; [now left |].
  cbn [shortest]. cbv zeta.
  set (unit := (10 ^ Z.of_nat (len - k))%Z).
  set (lo := (x / unit * unit)%Z). set (hi := (lo + unit)%Z).
  destruct (Z.eqb_spec (round_double lo) x) as [Hlo | Hlo];
    destruct (Z.eqb_spec (round_double hi) x) as [Hhi | Hhi]; cbn [andb].
  - destruct (x - lo <? hi - x)%Z; [now right |].
    destruct (hi - x <? x - lo)%Z; [now right |].
    destruct (Z.even _); now right.
  - now right.
  - now right.
  - apply IH.
Qed.

(** A safe integer is printed as it is. *)
Lemma shortest_small fuel k len x :
  (0 <= x < 2 ^ 53)%Z -> shortest fuel k len x = x.
Proof.
  intros Hx. revert k. induction fuel as [| fuel IH]; intros k; [reflexivity |].
  cbn [shortest]. cbv zeta.
  set (unit := (10 ^ Z.of_nat (len - k))%Z).
  assert (0 < unit)%Z as Hunit by (apply Z.pow_pos_nonneg; lia).
  pose proof (Z.div_mod x unit ltac:(lia)) as Hdiv.
  pose proof (Z.mod_pos_bound x unit Hunit) as Hmod.
  set (lo := (x / unit * unit)%Z). set (hi := (lo + unit)%Z).
  assert (lo <= x < hi)%Z as Hbetween by (subst lo hi; lia).
  assert (round_double lo = lo) as Hlo by (apply round_double_small; lia).
  assert (round_double hi <> x) as Hhi.
  { destruct (Z.lt_ge_cases hi (2 ^ 53)) as [Hs | Hb].
    - rewrite (round_double_small hi Hs). lia.
    - pose proof (round_double_ge hi Hb). lia. }
  rewrite Hlo.
  destruct (Z.eqb_spec (round_double hi) x) as [| _]; [contradiction |].
  rewrite andb_false_r.
  destruct (Z.eqb_spec lo x) as [| _]; [assumption | apply IH].
Qed.

Lemma printed_small x : (0 <= x < 2 ^ 53)%Z -> printed x = x.
Proof. apply shortest_small. Qed.

(** A double beyond 2^63 - 1 is printed as an integer beyond 2^63 - 1. *)
Lemma printed_large x : (2 ^ 63 <= x)%Z -> (2 ^ 63 <= printed x)%Z.
Proof.
  intros Hx. destruct (Z.eq_dec x (2 ^ 63)%Z) as [-> | Hne].
  { vm_compute. discriminate. }
  unfold printed.
  destruct (shortest_rounds (String.length (pretty x)) 1 (String.length (pretty x)) x)
    as [-> | Hr]; [exact Hx |].
  destruct (Z.lt_ge_cases (shortest (String.length (pretty x)) 1
                             (String.length (pretty x)) x) (2 ^ 63)) as [Hlt | Hge];
    [| exact Hge].
  apply round_double_below in Hlt. lia.
Qed.

(** The listing query takes a limit that is a safe integer as it is. *)
Lemma select_user_threads_safe u n t d :
  (0 <= n <= 9007199254740991)%Z ->
  Sql.select_user_threads u (Finite n) t d =
    Ok (List.map as_summary (take (Z.to_nat n) (Sql.user_threads d u)), d).
Proof.
  intros Hn. unfold Sql.select_user_threads. cbv zeta.
  assert (Z.sgn n * printed (Z.abs n) = n)%Z as ->.
  { rewrite Z.abs_eq by lia. rewrite printed_small by lia.
    destruct (Z.eq_dec n 0%Z) as [-> | Hne]; [reflexivity |].
    rewrite Z.sgn_pos by lia. lia. }
  destruct (Z.leb_spec (10 ^ 21) (Z.abs n)) as [| _]; [lia |].
  destruct (Z.ltb_spec n (-9223372036854775808)) as [| _]; [lia |].
  destruct (Z.ltb_spec 9223372036854775807 n) as [| _]; [lia |].
  destruct (Z.ltb_spec n 0) as [| _]; [lia |].
  reflexivity.
Qed.

(** What is printed for a double is not negative. *)
Lemma printed_nonneg x : (0 <= x)%Z -> (0 <= printed x)%Z.
Proof.
  intros Hx. unfold printed.
  destruct (shortest_rounds (String.length (pretty x)) 1 (String.length (pretty x)) x)
    as [-> | Hr]; [exact Hx |].
  destruct (Z.lt_ge_cases (shortest (String.length (pretty x)) 1
                             (String.length (pretty x)) x) 0%Z) as [Hlt | Hge];
    [| exact Hge].
  rewrite round_double_small in Hr by lia. lia.
Qed.

(** It refuses a Number that is negative or beyond 2^63 - 1, as it refuses
    [NaN] and the infinities. *)
Lemma select_user_threads_refused u limit t d :
  (forall n, limit = Finite n -> (n < 0 \/ 9223372036854775807 < n)%Z) ->
  exists e, Sql.select_user_threads u limit t d = Throw e.
Proof.
  intros Hlimit. unfold Sql.select_user_threads.
  destruct limit as [| b | n]; [eauto | eauto |]. cbv zeta.
  destruct (10 ^ 21 <=? _)%Z; [eauto |].
  destruct (Hlimit n eq_refl) as [Hneg | Hbig].
  - pose proof (printed_nonneg (Z.abs n) ltac:(lia)) as Hp.
    destruct (Z.eq_dec (printed (Z.abs n)) 0%Z) as [Hzero | Hne].
    + exfalso. unfold printed in Hzero.
      destruct (shortest_rounds (String.length (pretty (Z.abs n))) 1
                  (String.length (pretty (Z.abs n))) (Z.abs n)) as [Hs | Hr].
      * lia.
      * rewrite Hzero, round_double_small in Hr by lia. lia.
    + rewrite Z.sgn_neg by lia.
      destruct (_ || _); [eauto |].
      destruct (Z.ltb_spec (-1 * printed (Z.abs n)) 0) as [_ | Hge]; [eauto | lia].
  - pose proof (printed_large (Z.abs n) ltac:(lia)) as Hp.
    rewrite Z.sgn_pos by lia. rewrite Z.mul_1_l.
    destruct (Z.ltb_spec (printed (Z.abs n)) (-9223372036854775808)) as [_ | _];
      [eauto |].
    destruct (Z.ltb_spec 9223372036854775807 (printed (Z.abs n))) as [_ | ]; [eauto | lia].
Qed.

(** A text within the limit of its column is stored as it is. *)
Lemma split_chars_short n s :
  Sql.char_length s <= n -> Sql.split_chars n s = (s, EmptyString).
Proof.
  revert n. induction s as [| c rest IH]; intros n Hn; [reflexivity |].
  simpl in *. destruct (Sql.continuation c).
  - now rewrite (IH n Hn).
  - destruct n as [| n']; [lia |]. rewrite (IH n'); [reflexivity | lia].
Qed.

Lemma varchar_short n s : Sql.char_length s <= n -> Sql.varchar n s = Ok s.
Proof. intros Hn. unfold Sql.varchar. now rewrite (split_chars_short n s Hn). Qed.

Lemma column_short n v :
  (forall s, v = Some s -> Sql.char_length s <= n) -> Sql.column n v = Ok v.
Proof.
  intros Hn. destruct v as [s|]; [| reflexivity].
  unfold Sql.column. now rewrite (varchar_short n s (Hn s eq_refl)).
Qed.

(** What is kept of a text has at most as many characters as the column. *)
Lemma split_chars_length n s : Sql.char_length (Sql.split_chars n s).1 <= n.
Proof.
  revert n. induction s as [| c rest IH]; intros n; [simpl; lia |].
  simpl. destruct (Sql.continuation c) eqn:Hc.
  - specialize (IH n). destruct (Sql.split_chars n rest) as [kept excess].
    simpl in *. now rewrite Hc.
  - destruct n as [| n']; [simpl; lia |].
    specialize (IH n'). destruct (Sql.split_chars n' rest) as [kept excess].
    simpl in *. rewrite Hc. lia.
Qed.

Lemma varchar_length n s kept :
  Sql.varchar n s = Ok kept -> Sql.char_length kept <= n.
Proof.
  unfold Sql.varchar. pose proof (split_chars_length n s) as H.
  destruct (Sql.split_chars n s) as [k excess]. simpl in H.
  destruct (Sql.all_spaces excess); [| discriminate]. now intros [= <-].
Qed.

(** An [INSERT INTO threads] that went through either met its key and did
    nothing, or appended one row with the values as their columns keep
    them. *)
Lemma insert_thread_ok_inv id u t d a d' :
  Sql.insert_thread id u t d = Ok (a, d') ->
  exists key owner,
    Sql.column 64 id = Ok (Some key) /\ Sql.column 320 u = Ok owner /\
    ((Sql.thread_exists d key = true /\ d' = d) \/
     (Sql.thread_exists d key = false /\
      d' = Database (threads d ++ [ThreadRow key owner None t t]) (messages d))).
Proof.
  unfold Sql.insert_thread.
  destruct (Sql.column 64 id) as [[key|] | e]; [| | discriminate].
  - destruct (Sql.column 320 u) as [owner | e]; [| discriminate].
    destruct (Sql.thread_exists d key) eqn:Hex; intros [= _ <-];
      exists key, owner; split; [reflexivity | | reflexivity |];
      (split; [reflexivity |]); [left | right]; now split.
  - destruct (Sql.column 320 u); discriminate.
Qed.

Lemma insert_thread_keeps_messages id u : keeps_messages (Sql.insert_thread id u).
Proof.
  intros t d a d' H.
  apply insert_thread_ok_inv in H as (key & owner & _ & _ & [[_ ->] | [_ ->]]);
    reflexivity.
Qed.

Lemma untouched_db_query_llm {A} (stmt : Sql.statement A) :
  untouched llm_calls (db_query stmt).
Proof. now apply untouched_db_query. Qed.

Lemma untouched_db_query_uuids {A} (stmt : Sql.statement A) :
  untouched uuids (db_query stmt).
Proof. now apply untouched_db_query. Qed.

Lemma untouched_db_query_messages {A} (stmt : Sql.statement A) :
  keeps_messages stmt -> untouched (fun s => messages (store s)) (db_query stmt).
Proof.
  intros H. apply untouched_db_query; [reflexivity |].
  intros s a d Hs. simpl. now apply (H _ _ _ _ Hs).
Qed.

Lemma untouched_db_query_store {A} (stmt : Sql.statement A) :
  read_only stmt -> untouched store (db_query stmt).
Proof.
  intros H. apply untouched_db_query; [reflexivity |].
  intros s a d Hs. simpl. now apply (H _ _ _ _ Hs).
Qed.

(** Decomposes a frame goal along the structure of the computation. *)
Ltac frame :=
  repeat first
    [ progress intros
    | apply untouched_ret
    | apply untouched_throw
    | apply untouched_lift
    | apply untouched_bind
    | apply untouched_try_catch
    | apply untouched_print; reflexivity
    | apply untouched_uuidv4; reflexivity
    | apply untouched_fetch; reflexivity
    | apply untouched_db_query_llm
    | apply untouched_db_query_uuids
    | match goal with
      | |- untouched _ (if ?b then _ else _) => destruct b
      | |- untouched _ (match ?x with _ => _ end) => destruct x
      end ].

Section StoreFrames.

Variable E : externals.

Lemma getDb_ready s : pool s = true -> getDb E s = (Ok true, s).
Proof. unfold getDb. now intros ->. Qed.

Lemma getDb_degraded s : degraded E s -> getDb E s = (Ok false, s).
Proof. unfold getDb. intros [-> ->]. reflexivity. Qed.

Lemma getDb_connect s :
  pool s = false -> env_truthy (DATABASE_URL (CONFIG (env E))) = true ->
  getDb E s =
    match raises (next_step s) with
    | Some reason => (Throw (Error reason), stepped (store s) (set_pool true s))
    | None => (Ok true, connected s)
    end.
Proof.
  intros Hpool Hurl. unfold getDb, connected. rewrite Hpool, Hurl. simpl.
  unfold bind. rewrite db_query_unfold.
  change (next_step (set_pool true s)) with (next_step s).
  now destruct (raises (next_step s)).
Qed.

Lemma getDb_cases s :
  getDb E s = (Ok (pool s), s) \/
  (pool s = false /\ env_truthy (DATABASE_URL (CONFIG (env E))) = true /\
   (getDb E s = (Ok true, connected s) /\ raises (next_step s) = None \/
    exists reason, raises (next_step s) = Some reason /\
      getDb E s = (Throw (Error reason), stepped (store s) (set_pool true s)))).
Proof.
  destruct (pool s) eqn:Hpool; [left; now apply getDb_ready |].
  destruct (env_truthy (DATABASE_URL (CONFIG (env E)))) eqn:Hurl;
    [| left; now apply getDb_degraded].
  right. split; [reflexivity |]. split; [reflexivity |].
  rewrite (getDb_connect s Hpool Hurl).
  destruct (raises (next_step s)) as [reason|]; [right; eauto | left; eauto].
Qed.

Lemma getDb_llm : untouched llm_calls (getDb E).
Proof.
  intros s. destruct (getDb_cases s) as [-> | (_ & _ & [[-> _] | (r & _ & ->)])];
    [reflexivity | | reflexivity].
  unfold connected. now destruct (pool s).
Qed.

Lemma getDb_uuids : untouched uuids (getDb E).
Proof.
  intros s. destruct (getDb_cases s) as [-> | (_ & _ & [[-> _] | (r & _ & ->)])];
    [reflexivity | | reflexivity].
  unfold connected. now destruct (pool s).
Qed.

Lemma getDb_store : untouched store (getDb E).
Proof.
  intros s. destruct (getDb_cases s) as [-> | (_ & _ & [[-> _] | (r & _ & ->)])];
    [reflexivity | | reflexivity].
  unfold connected. now destruct (pool s).
Qed.

Lemma getDb_messages : untouched (fun s => messages (store s)) (getDb E).
Proof. intros s. now rewrite getDb_store. Qed.

Lemma getOrCreateThread_llm a b : untouched llm_calls (getOrCreateThread E a b).
Proof.
  unfold getOrCreateThread, or_uuidv4.
  apply untouched_bind; [apply getDb_llm |]. frame.
Qed.

Lemma getOrCreateThread_messages a b :
  untouched (fun s => messages (store s)) (getOrCreateThread E a b).
Proof.
  unfold getOrCreateThread, or_uuidv4.
  apply untouched_bind; [apply getDb_messages |].
  frame;
    try (apply untouched_db_query_messages;
         first [ apply read_only_keeps_messages;
                 first [apply select_thread_read_only | apply select_messages_read_only]
               | apply insert_thread_keeps_messages ]).
Qed.

Lemma saveMessage_llm a r c : untouched llm_calls (saveMessage E a r c).
Proof.
  unfold saveMessage. apply untouched_bind; [apply getDb_llm |]. frame.
Qed.


End StoreFrames.

(** ** Identifiers *)

Lemma or_uuidv4_supplied E v s :
  truthy v = true -> or_uuidv4 E v s = (Ok v, s).
Proof. unfold or_uuidv4. now intros ->. Qed.

Lemma or_uuidv4_generated E v s :
  truthy v = false ->
  or_uuidv4 E v s = (Ok (VStr (uuid_of E (uuids s))), drawn s).
Proof. unfold or_uuidv4. now intros ->. Qed.

(** ** The thread store without a database *)

Section Degraded.

Variable E : externals.

Lemma getOrCreateThread_degraded requested userEmail s :
  degraded E s ->
  getOrCreateThread E requested userEmail s =
    if truthy requested then (Ok (Thread requested []), s)
    else (Ok (Thread (VStr (uuid_of E (uuids s))) []), drawn s).
Proof.
  intros Hd. unfold getOrCreateThread.
  rewrite (bind_ok _ _ _ _ _ (getDb_degraded E s Hd)). simpl.
  destruct (truthy requested) eqn:Ht.
  - now rewrite (bind_ok _ _ _ _ _ (or_uuidv4_supplied E _ s Ht)).
  - now rewrite (bind_ok _ _ _ _ _ (or_uuidv4_generated E _ s Ht)).
Qed.

Lemma saveMessage_degraded thread role content s :
  degraded E s -> saveMessage E thread role content s = (Ok tt, s).
Proof.
  intros Hd. unfold saveMessage.
  now rewrite (bind_ok _ _ _ _ _ (getDb_degraded E s Hd)).
Qed.

(** C2, as amended: when [DATABASE_URL] is not set, [getOrCreateThread] does
    not fail and resolves to an empty history with the identifier that was
    supplied when there is one (a truthy [threadId]), in which case nothing
    changes, and with a newly generated identifier only when none was
    supplied; [saveMessage] resolves without any effect. *)
Theorem degraded_thread_store requested userEmail thread role content s :
  degraded E s ->
  (truthy requested = true ->
   getOrCreateThread E requested userEmail s = (Ok (Thread requested []), s)) /\
  (truthy requested = false ->
   getOrCreateThread E requested userEmail s =
     (Ok (Thread (VStr (uuid_of E (uuids s))) []), drawn s)) /\
  saveMessage E thread role content s = (Ok tt, s).
Proof.
  intros Hd. rewrite (getOrCreateThread_degraded _ _ _ Hd).
  split; [now intros -> | split; [now intros -> |]].
  now apply saveMessage_degraded.
Qed.

End Degraded.

Lemma degraded_thread_store_witness :
  getOrCreateThread Sample.stateless_gateway VUndefined (VStr "u@x.com")
    (Sample.boot Sample.db0 []) =
    (Ok (Thread (VStr "uuid-0") []), drawn (Sample.boot Sample.db0 [])) /\
  saveMessage Sample.stateless_gateway (VStr "uuid-0") "user" (VStr "hi")
    (Sample.boot Sample.db0 []) = (Ok tt, Sample.boot Sample.db0 []).
Proof.
  assert (degraded Sample.stateless_gateway (Sample.boot Sample.db0 [])) as Hd
    by (split; reflexivity).
  split.
  - now apply (degraded_thread_store Sample.stateless_gateway VUndefined
                 (VStr "u@x.com") VNull "user" VNull _ Hd).
  - now apply (degraded_thread_store Sample.stateless_gateway VUndefined
                 VNull (VStr "uuid-0") "user" (VStr "hi") _ Hd).
Defined.

(** Without a store, a request that names a thread gets that name back: the
    identifier is not a generated one, and the generator was not called. *)
Lemma degraded_keeps_supplied_identifier :
  degraded Sample.stateless_gateway (Sample.boot Sample.db0 []) /\
  getOrCreateThread Sample.stateless_gateway (VStr "t-1") (VStr "u@x.com")
    (Sample.boot Sample.db0 []) =
    (Ok (Thread (VStr "t-1") []), Sample.boot Sample.db0 []) /\
  uuid_of Sample.stateless_gateway (uuids (Sample.boot Sample.db0 [])) = "uuid-0".
Proof. repeat split. Qed.

(** ** The thread store with a database *)

Lemma created_le_total : Total created_le.
Proof. intros a b. unfold created_le. lia. Qed.

Lemma created_le_trans : Transitive created_le.
Proof. intros a b c. unfold created_le. lia. Qed.

Lemma updated_ge_total : Total updated_ge.
Proof. intros a b. unfold updated_ge. lia. Qed.

Lemma updated_ge_trans : Transitive updated_ge.
Proof. intros a b c. unfold updated_ge. lia. Qed.

Lemma filter_nonempty {A} (P : A -> Prop) `{forall x, Decision (P x)} (l : list A) :
  Nat.ltb 0 (length (filter P l)) = bool_decide (Exists P l).
Proof.
  induction l as [|x l IH]; [reflexivity |].
  rewrite filter_cons. destruct (decide (P x)) as [Hx|Hx].
  - simpl. symmetry. apply bool_decide_eq_true_2. now constructor.
  - rewrite IH. apply bool_decide_ext. split.
    + now constructor 2.
    + intros Hex. inversion Hex; subst; [contradiction | assumption].
Qed.

Lemma select_thread_found d id :
  Nat.ltb 0 (length (filter (fun t => Some (t_id t) = Some id) (threads d)))
  = Sql.thread_exists d id.
Proof.
  rewrite filter_nonempty. unfold Sql.thread_exists.
  apply bool_decide_ext. rewrite !Exists_exists.
  split; intros (t & Hin & Ht); exists t; split; congruence.
Qed.

(** The history of a thread is its rows, each exactly once, by ascending
    creation time. *)
Lemma thread_messages_sorted d id :
  Sql.thread_messages d (Some id) ≡ₚ
    filter (fun m => m_thread_id m = Some id) (messages d) /\
  StronglySorted created_le (Sql.thread_messages d (Some id)).
Proof.
  unfold Sql.thread_messages. split.
  - apply merge_sort_Permutation.
  - apply StronglySorted_merge_sort;
      [apply created_le_trans | apply created_le_total].
Qed.

(** A duplicate insert of an identifier is a no-op, not an error. *)
Lemma insert_thread_duplicate d id u t :
  Sql.char_length id <= 64 -> fits 320 u ->
  Sql.thread_exists d id = true -> Sql.insert_thread (Some id) u t d = Ok (tt, d).
Proof.
  intros Hid Hu Hex. unfold Sql.insert_thread.
  rewrite (column_short 64 (Some id)), (column_short 320 u Hu), Hex; [reflexivity |].
  now intros ? [= <-].
Qed.

Lemma insert_thread_new d id u t :
  Sql.char_length id <= 64 -> fits 320 u ->
  Sql.thread_exists d id = false ->
  Sql.insert_thread (Some id) u t d =
    Ok (tt, Database (threads d ++ [ThreadRow id u None t t]) (messages d)).
Proof.
  intros Hid Hu Hex. unfold Sql.insert_thread.
  rewrite (column_short 64 (Some id)), (column_short 320 u Hu), Hex; [reflexivity |].
  now intros ? [= <-].
Qed.

(** A value beyond its column makes the insert raise. *)
Lemma column_overflows n s :
  overflows n s -> exists e, Sql.column n (Some s) = Throw e.
Proof.
  unfold overflows, Sql.column, Sql.varchar.
  destruct (Sql.split_chars n s) as [kept excess]. simpl. intros ->. eauto.
Qed.

Lemma insert_thread_overflows d id u t :
  overflows 64 id \/ (exists text, u = Some text /\ overflows 320 text) ->
  exists e, Sql.insert_thread (Some id) u t d = Throw e.
Proof.
  intros H. unfold Sql.insert_thread.
  destruct (Sql.column 64 (Some id)) as [key | e] eqn:Hkey; [| eauto].
  destruct H as [H | (text & -> & H)].
  - apply column_overflows in H as [e H]. congruence.
  - apply column_overflows in H as [e ->]. eauto.
Qed.

Section Calm.

Implicit Types (s : state).

Lemma calm_next s : calm s -> raises (next_step s) = None.
Proof.
  unfold calm, next_step. destruct (script s) as [|step rest]; [reflexivity |].
  intros H. now inversion H.
Qed.

Lemma calm_stepped d s : calm s -> calm (stepped d s).
Proof.
  unfold calm. simpl. destruct (script s) as [|step rest]; [trivial |].
  intros H. now inversion H.
Qed.

Lemma calm_connected s : calm s -> calm (connected s).
Proof.
  unfold connected. destruct (pool s); [trivial |].
  intros H. now apply (calm_stepped (store s) s).
Qed.

Lemma db_query_calm {A} (stmt : Sql.statement A) s :
  calm s ->
  db_query stmt s =
    match stmt (tick s) (store s) with
    | Ok (a, d) => (Ok a, stepped d s)
    | Throw e => (Throw e, stepped (store s) s)
    end.
Proof. intros H. rewrite db_query_unfold. now rewrite (calm_next s H). Qed.

Lemma db_query_raises {A} (stmt : Sql.statement A) s reason :
  raises (next_step s) = Some reason ->
  db_query stmt s = (Throw (Error reason), stepped (store s) s).
Proof. intros H. rewrite db_query_unfold. now rewrite H. Qed.

End Calm.

Section Available.

Variable E : externals.
Implicit Types (requested userEmail : value) (s : state).

Lemma getDb_available s :
  available E s -> getDb E s = (Ok true, connected s).
Proof.
  intros [Hurl Hcalm]. destruct (pool s) eqn:Hpool.
  - rewrite (getDb_ready E s Hpool). unfold connected. now rewrite Hpool.
  - rewrite (getDb_connect E s Hpool Hurl). now rewrite (calm_next s Hcalm).
Qed.

Lemma connected_store s : store (connected s) = store s.
Proof. unfold connected. now destruct (pool s). Qed.

Lemma connected_uuids s : uuids (connected s) = uuids s.
Proof. unfold connected. now destruct (pool s). Qed.

Lemma connected_llm s : llm_calls (connected s) = llm_calls s.
Proof. unfold connected. now destruct (pool s). Qed.

Lemma connected_pool s : pool (connected s) = true.
Proof. unfold connected. now destruct (pool s) eqn:H. Qed.

(** An existing thread: two reads. *)
Lemma getOrCreateThread_existing requested userEmail s id :
  available E s -> truthy requested = true -> pg_param E requested = Some id ->
  Sql.thread_exists (store s) id = true ->
  getOrCreateThread E requested userEmail s =
    (Ok (Thread requested (List.map as_msg (Sql.thread_messages (store s) (Some id)))),
     stepped (store s) (stepped (store s) (connected s))).
Proof.
  intros Hav Ht Hid Hex. pose proof Hav as [_ Hcalm].
  apply calm_connected in Hcalm.
  unfold getOrCreateThread.
  rewrite (bind_ok _ _ _ _ _ (getDb_available s Hav)). simpl.
  rewrite Ht, Hid.
  erewrite (bind_ok _ _ (connected s) (Some _)); [reflexivity |].
  unfold bind. rewrite (db_query_calm _ _ Hcalm). unfold Sql.select_thread.
  rewrite connected_store, select_thread_found, Hex.
  rewrite (db_query_calm _ _ (calm_stepped _ _ Hcalm)).
  unfold Sql.select_messages. reflexivity.
Qed.

(** An unknown thread: one read, then one insert under the supplied name. *)
Lemma getOrCreateThread_unknown_run requested userEmail s id :
  available E s -> truthy requested = true -> pg_param E requested = Some id ->
  Sql.thread_exists (store s) id = false ->
  getOrCreateThread E requested userEmail s =
    match Sql.insert_thread (Some id) (pg_param E userEmail)
            (tick (stepped (store s) (connected s))) (store s) with
    | Ok (_, d) => (Ok (Thread requested []), stepped d (stepped (store s) (connected s)))
    | Throw e => (Throw e, stepped (store s) (stepped (store s) (connected s)))
    end.
Proof.
  intros Hav Ht Hid Hex. pose proof Hav as [_ Hcalm].
  apply calm_connected in Hcalm.
  unfold getOrCreateThread.
  rewrite (bind_ok _ _ _ _ _ (getDb_available s Hav)). simpl.
  rewrite Ht, Hid.
  erewrite (bind_ok _ _ (connected s) None).
  2: { unfold bind. rewrite (db_query_calm _ _ Hcalm). unfold Sql.select_thread.
       now rewrite connected_store, select_thread_found, Hex. }
  rewrite (bind_ok _ _ _ _ _ (or_uuidv4_supplied E _ _ Ht)). rewrite Hid.
  unfold bind. rewrite (db_query_calm _ _ (calm_stepped _ _ Hcalm)).
  simpl store.
  now destruct (Sql.insert_thread _ _ _ _) as [[[] d] | e].
Qed.

Lemma getOrCreateThread_unknown requested userEmail s id :
  available E s -> truthy requested = true -> pg_param E requested = Some id ->
  Sql.thread_exists (store s) id = false ->
  Sql.char_length id <= 64 -> fits 320 (pg_param E userEmail) ->
  getOrCreateThread E requested userEmail s =
    (Ok (Thread requested []),
     stepped
       (Database
          (threads (store s) ++
             [ThreadRow id (pg_param E userEmail) None
                (tick (stepped (store s) (connected s)))
                (tick (stepped (store s) (connected s)))])
          (messages (store s)))
       (stepped (store s) (connected s))).
Proof.
  intros Hav Ht Hid Hex Hlen Hu.
  rewrite (getOrCreateThread_unknown_run _ _ _ _ Hav Ht Hid Hex).
  now rewrite (insert_thread_new _ _ _ _ Hlen Hu Hex).
Qed.

(** No thread named: a generated identifier and one insert. *)
Lemma getOrCreateThread_unnamed_run requested userEmail s :
  available E s -> truthy requested = false ->
  getOrCreateThread E requested userEmail s =
    match Sql.insert_thread (Some (uuid_of E (uuids s))) (pg_param E userEmail)
            (tick (connected s)) (store s) with
    | Ok (_, d) => (Ok (Thread (VStr (uuid_of E (uuids s))) []), stepped d (drawn (connected s)))
    | Throw e => (Throw e, stepped (store s) (drawn (connected s)))
    end.
Proof.
  intros Hav Ht. pose proof Hav as [_ Hcalm].
  apply calm_connected in Hcalm.
  unfold getOrCreateThread.
  rewrite (bind_ok _ _ _ _ _ (getDb_available s Hav)). simpl.
  rewrite Ht. rewrite (bind_ok (ret None) _ _ None _ eq_refl).
  rewrite (bind_ok _ _ _ _ _ (or_uuidv4_generated E _ _ Ht)).
  rewrite connected_uuids. cbn [pg_param]. unfold bind.
  assert (calm (drawn (connected s))) as Hcalm' by exact Hcalm.
  rewrite (db_query_calm _ _ Hcalm'). cbn [store drawn]. rewrite connected_store.
  change (tick (drawn (connected s))) with (tick (connected s)).
  now destruct (Sql.insert_thread _ _ _ _) as [[[] d] | e].
Qed.

(** The insert does nothing when the generated identifier is taken. *)
Lemma getOrCreateThread_unnamed requested userEmail s :
  available E s -> truthy requested = false ->
  Sql.char_length (uuid_of E (uuids s)) <= 64 -> fits 320 (pg_param E userEmail) ->
  getOrCreateThread E requested userEmail s =
    (Ok (Thread (VStr (uuid_of E (uuids s))) []),
     stepped
       (if Sql.thread_exists (store s) (uuid_of E (uuids s)) then store s
        else
          Database
            (threads (store s) ++
               [ThreadRow (uuid_of E (uuids s)) (pg_param E userEmail) None
                  (tick (connected s)) (tick (connected s))])
            (messages (store s)))
       (drawn (connected s))).
Proof.
  intros Hav Ht Hlen Hu.
  rewrite (getOrCreateThread_unnamed_run _ _ _ Hav Ht).
  destruct (Sql.thread_exists (store s) (uuid_of E (uuids s))) eqn:Hex.
  - now rewrite (insert_thread_duplicate _ _ _ _ Hlen Hu Hex).
  - now rewrite (insert_thread_new _ _ _ _ Hlen Hu Hex).
Qed.

(** C4: with the store available, [getOrCreateThread] does the following.  For
    a supplied [threadId] that names an existing thread it resolves to that
    [threadId] and the thread's messages, each once, by ascending creation
    time, and inserts or changes no row.  For a supplied [threadId] that
    names no thread, when [threadId] has at most 64 characters and
    [userEmail] at most 320 (the limits of the columns [id] and
    [user_email]), it resolves to that [threadId] and an empty history,
    having inserted a thread of that name for [userEmail] without generating
    an identifier.  With no [threadId], under the same limits, it generates
    an identifier and resolves to it and an empty history, having inserted a
    thread of that name for [userEmail]; when a thread of that name exists
    already the insert is a no-op and not an error.  For a supplied
    [threadId] that names no thread, when [threadId] goes beyond 64
    characters or [userEmail] beyond 320 by more than spaces, the call
    rejects and no thread is created. *)
Theorem getOrCreateThread_available requested userEmail s :
  available E s ->
  (forall id,
     truthy requested = true -> pg_param E requested = Some id ->
     Sql.thread_exists (store s) id = true ->
     exists rows s',
       getOrCreateThread E requested userEmail s =
         (Ok (Thread requested (List.map as_msg rows)), s') /\
       rows ≡ₚ filter (fun m => m_thread_id m = Some id) (messages (store s)) /\
       StronglySorted created_le rows /\
       store s' = store s /\ uuids s' = uuids s) /\
  (forall id,
     truthy requested = true -> pg_param E requested = Some id ->
     Sql.thread_exists (store s) id = false ->
     Sql.char_length id <= 64 -> fits 320 (pg_param E userEmail) ->
     exists t s',
       getOrCreateThread E requested userEmail s = (Ok (Thread requested []), s') /\
       store s' =
         Database (threads (store s) ++ [ThreadRow id (pg_param E userEmail) None t t])
           (messages (store s)) /\
       uuids s' = uuids s) /\
  (truthy requested = false ->
   Sql.char_length (uuid_of E (uuids s)) <= 64 -> fits 320 (pg_param E userEmail) ->
   exists s',
     getOrCreateThread E requested userEmail s =
       (Ok (Thread (VStr (uuid_of E (uuids s))) []), s') /\
     uuids s' = S (uuids s) /\
     (Sql.thread_exists (store s) (uuid_of E (uuids s)) = true -> store s' = store s) /\
     (Sql.thread_exists (store s) (uuid_of E (uuids s)) = false ->
      exists t,
        store s' =
          Database
            (threads (store s) ++
               [ThreadRow (uuid_of E (uuids s)) (pg_param E userEmail) None t t])
            (messages (store s)))) /\
  (forall id,
     truthy requested = true -> pg_param E requested = Some id ->
     Sql.thread_exists (store s) id = false ->
     overflows 64 id \/
       (exists text, pg_param E userEmail = Some text /\ overflows 320 text) ->
     exists e s',
       getOrCreateThread E requested userEmail s = (Throw e, s') /\
       store s' = store s /\ uuids s' = uuids s).
Proof.
  intros Hav. split; [| split; [| split]].
  - intros id Ht Hid Hex.
    exists (Sql.thread_messages (store s) (Some id)). eexists.
    split; [apply (getOrCreateThread_existing _ _ _ _ Hav Ht Hid Hex) |].
    destruct (thread_messages_sorted (store s) id) as [Hperm Hsorted].
    split; [exact Hperm |]. split; [exact Hsorted |].
    split; [reflexivity | apply connected_uuids].
  - intros id Ht Hid Hex Hlen Hu. eexists _, _.
    split; [apply (getOrCreateThread_unknown _ _ _ _ Hav Ht Hid Hex Hlen Hu) |].
    split; [reflexivity | apply connected_uuids].
  - intros Ht Hlen Hu. eexists.
    split; [apply (getOrCreateThread_unnamed _ _ _ Hav Ht Hlen Hu) |].
    split; [simpl; now rewrite connected_uuids |].
    split; [now intros -> | intros ->; eexists; reflexivity].
  - intros id Ht Hid Hex Hover.
    rewrite (getOrCreateThread_unknown_run _ _ _ _ Hav Ht Hid Hex).
    destruct (insert_thread_overflows (store s) id (pg_param E userEmail)
                (tick (stepped (store s) (connected s))) Hover) as [e ->].
    eexists _, _. split; [reflexivity |].
    split; [reflexivity | apply connected_uuids].
Qed.

End Available.

Lemma getOrCreateThread_available_witness :
  available Sample.gateway (Sample.boot Sample.db0 []) /\
  exists rows s',
    getOrCreateThread Sample.gateway (VStr "t-1") (VStr "u@x.com")
      (Sample.boot Sample.db0 []) = (Ok (Thread (VStr "t-1") (List.map as_msg rows)), s') /\
    rows ≡ₚ filter (fun m => m_thread_id m = Some "t-1") (messages Sample.db0) /\
    StronglySorted created_le rows /\ store s' = Sample.db0.
Proof.
  assert (available Sample.gateway (Sample.boot Sample.db0 [])) as Hav
    by (split; [reflexivity | constructor]).
  split; [exact Hav |].
  destruct (getOrCreateThread_available Sample.gateway (VStr "t-1") (VStr "u@x.com")
              (Sample.boot Sample.db0 []) Hav) as (Hex & _).
  destruct (Hex "t-1" eq_refl eq_refl eq_refl)
    as (rows & s' & Hrun & Hperm & Hsorted & Hstore & _).
  exists rows, s'. auto.
Defined.

(** A supplied [threadId] of 65 characters that names no thread: the store is
    available, and [getOrCreateThread] rejects, no thread created. *)
Lemma overlong_thread_identifier_rejected :
  available Sample.gateway (Sample.boot Sample.db0 []) /\
  Sql.char_length Sample.long_id = 65 /\
  Sql.thread_exists Sample.db0 Sample.long_id = false /\
  exists s',
    getOrCreateThread Sample.gateway (VStr Sample.long_id) (VStr "u@x.com")
      (Sample.boot Sample.db0 []) =
      (Throw (Error "value too long for type character varying(64)"), s') /\
    store s' = Sample.db0.
Proof.
  split; [split; [reflexivity | constructor] |].
  split; [reflexivity |]. split; [reflexivity |].
  eexists. split; [vm_compute; reflexivity | reflexivity].
Qed.

(** ** The chat turn *)

Section Turn.

Variable E : externals.
Implicit Types (req : request) (s : state) (m : string).

Lemma post_v1_chat_valid req m s :
  valid_chat E req m ->
  post_v1_chat E req s =
    try_catch
      (chat_turn E (property (body req) "userEmail") (VStr m)
         (property (body req) "threadId"))
      (chat_catch E) s.
Proof.
  intros (Hauth & Hm & Hne & Hu). unfold post_v1_chat.
  rewrite (authenticateRequest_match E req _ s Hauth).
  now apply chat_handler_accepts.
Qed.

Lemma chat_turn_thread_throws userEmail userMessage requested s e s1 :
  getOrCreateThread E requested userEmail s = (Throw e, s1) ->
  chat_turn E userEmail userMessage requested s = (Throw e, s1).
Proof. intros H. unfold chat_turn. now rewrite (bind_throw _ _ _ _ _ H). Qed.

Lemma chat_turn_llm_throws userEmail userMessage requested s th s1 e s2 :
  getOrCreateThread E requested userEmail s = (Ok th, s1) ->
  callLLM E (thread_history th ++ [Msg "user" userMessage]) userEmail s1
    = (Throw e, s2) ->
  chat_turn E userEmail userMessage requested s = (Throw e, s2).
Proof.
  intros Hth Hllm. unfold chat_turn.
  rewrite (bind_ok _ _ _ _ _ Hth). now rewrite (bind_throw _ _ _ _ _ Hllm).
Qed.

Lemma chat_turn_persists userEmail userMessage requested s th s1 reply s2 :
  getOrCreateThread E requested userEmail s = (Ok th, s1) ->
  callLLM E (thread_history th ++ [Msg "user" userMessage]) userEmail s1
    = (Ok reply, s2) ->
  chat_turn E userEmail userMessage requested s =
    match persist E th userMessage reply s2 with
    | (Ok _, s3) => (Ok (Response 200 (ChatBody reply (threadId th))), s3)
    | (Throw e, s3) => (Throw e, s3)
    end.
Proof.
  intros Hth Hllm. unfold chat_turn, persist.
  rewrite (bind_ok _ _ _ _ _ Hth). rewrite (bind_ok _ _ _ _ _ Hllm).
  unfold bind.
  destruct (saveMessage E (threadId th) "user" userMessage s2) as [[[]|e] s3];
    [| reflexivity].
  now destruct (saveMessage E (threadId th) "assistant" reply s3) as [[[]|e] s4].
Qed.

(** A turn that answers went through the thread store, the provider and the
    two writes. *)
Lemma chat_turn_ok_inv userEmail userMessage requested s r s' :
  chat_turn E userEmail userMessage requested s = (Ok r, s') ->
  exists th s1 reply s2,
    getOrCreateThread E requested userEmail s = (Ok th, s1) /\
    callLLM E (thread_history th ++ [Msg "user" userMessage]) userEmail s1
      = (Ok reply, s2) /\
    persist E th userMessage reply s2 = (Ok tt, s') /\
    r = Response 200 (ChatBody reply (threadId th)).
Proof.
  intros H.
  destruct (getOrCreateThread E requested userEmail s) as [[th|e] s1] eqn:Hth.
  2: { rewrite (chat_turn_thread_throws _ _ _ _ _ _ Hth) in H. discriminate. }
  destruct (callLLM E (thread_history th ++ [Msg "user" userMessage]) userEmail s1)
    as [[reply|e] s2] eqn:Hllm.
  2: { rewrite (chat_turn_llm_throws _ _ _ _ _ _ _ _ Hth Hllm) in H. discriminate. }
  rewrite (chat_turn_persists _ _ _ _ _ _ _ _ Hth Hllm) in H.
  destruct (persist E th userMessage reply s2) as [[[]|e] s3] eqn:Hp; [| discriminate].
  inversion H; subst. now exists th, s1, reply, s2.
Qed.

(** C1, as amended: for a chat request that passes authentication and
    validation and whose LLM call succeeds, if persisting the user message or
    the assistant reply then raises, the request fails: the answer is the 500
    apology (with the error message as [details] in development only), the
    error is logged, and the computed reply is not part of the answer. *)
Theorem persistence_failure_fails_request req m s th s1 reply s2 e s3 :
  valid_chat E req m ->
  getOrCreateThread E (property (body req) "threadId")
    (property (body req) "userEmail") s = (Ok th, s1) ->
  callLLM E (thread_history th ++ [Msg "user" (VStr m)])
    (property (body req) "userEmail") s1 = (Ok reply, s2) ->
  (saveMessage E (threadId th) "user" (VStr m) s2 = (Throw e, s3) \/
   exists s2',
     saveMessage E (threadId th) "user" (VStr m) s2 = (Ok tt, s2') /\
     saveMessage E (threadId th) "assistant" reply s2' = (Throw e, s3)) ->
  post_v1_chat E req s =
    (Ok (Response 500
           (ErrorBody "Something went wrong on my end. Try again in a sec."
              (details_of E e))),
     logged ("[Chat] Error: " +:+ message e) s3).
Proof.
  intros Hvalid Hth Hllm Hsave.
  rewrite (post_v1_chat_valid req m s Hvalid). unfold try_catch.
  rewrite (chat_turn_persists _ _ _ _ _ _ _ _ Hth Hllm).
  assert (persist E th (VStr m) reply s2 = (Throw e, s3)) as ->.
  { unfold persist. destruct Hsave as [H | (s2' & H1 & H2)].
    - now rewrite (bind_throw _ _ _ _ _ H).
    - now rewrite (bind_ok _ _ _ _ _ H1). }
  apply chat_catch_run.
Qed.

(** C3, as amended: when the provider answers a chat turn with a non-success
    status, the answer is the 500 apology, whose only variable part is the
    status code shown as [details] in development (never the provider's
    payload), and the [messages] table is as it was before the request; the
    database is as [getOrCreateThread] left it, so a thread row created for
    this turn stays. *)
Theorem llm_refusal_fails_request req m s th s1 r :
  valid_chat E req m ->
  getOrCreateThread E (property (body req) "threadId")
    (property (body req) "userEmail") s = (Ok th, s1) ->
  env_truthy (LLM_API_KEY (CONFIG (env E))) = true ->
  provider E (length (llm_calls s1))
    (completion_request E (thread_history th ++ [Msg "user" (VStr m)])
       (property (body req) "userEmail")) = FetchResponse r ->
  ok r = false ->
  exists s',
    post_v1_chat E req s =
      (Ok (Response 500
             (ErrorBody "Something went wrong on my end. Try again in a sec."
                (details_of E (Error ("LLM API error: " +:+ pretty (resp_status r)))))),
       s') /\
    messages (store s') = messages (store s) /\
    store s' = store s1.
Proof.
  intros Hvalid Hth Hkey Hp Hok.
  rewrite (post_v1_chat_valid req m s Hvalid). unfold try_catch.
  rewrite (chat_turn_llm_throws _ _ _ _ _ _ _ _ Hth
             (callLLM_refused E _ _ _ _ Hkey Hp Hok)).
  rewrite chat_catch_run. eexists. split; [reflexivity |]. simpl.
  split; [| reflexivity].
  pose proof (getOrCreateThread_messages E (property (body req) "threadId")
                (property (body req) "userEmail") s) as Hm.
  now rewrite Hth in Hm.
Qed.

End Turn.

Lemma turn_request_valid E thread :
  BOCHAT_API_KEY (CONFIG (env E)) = Some "s3cret" ->
  valid_chat E (Sample.turn_request thread) "c".
Proof.
  intros Hkey. split; [| split; [reflexivity | split; [discriminate | reflexivity]]].
  exists "s3cret". split; [reflexivity | split; [discriminate | exact Hkey]].
Qed.

Lemma persistence_failure_fails_request_witness :
  exists s',
    post_v1_chat Sample.gateway (Sample.turn_request (VStr "t-1"))
      (Sample.boot Sample.db0 (Sample.outage_after 3)) =
    (Ok (Response 500
           (ErrorBody "Something went wrong on my end. Try again in a sec." None)),
     s').
Proof.
  eexists.
  eapply (persistence_failure_fails_request Sample.gateway
            (Sample.turn_request (VStr "t-1")) "c").
  - now apply turn_request_valid.
  - vm_compute. reflexivity.
  - vm_compute. reflexivity.
  - left. vm_compute. reflexivity.
Defined.

(** The provider answered [pong], the first write raised, and the client got
    the apology instead of the reply. *)
Lemma persistence_failure_loses_reply :
  exists th s1 s2 e s3 s',
    getOrCreateThread Sample.gateway (VStr "t-1") (VStr "u@x.com")
      (Sample.boot Sample.db0 (Sample.outage_after 3)) = (Ok th, s1) /\
    callLLM Sample.gateway (thread_history th ++ [Msg "user" (VStr "c")])
      (VStr "u@x.com") s1 = (Ok (VStr "pong"), s2) /\
    saveMessage Sample.gateway (threadId th) "user" (VStr "c") s2 = (Throw e, s3) /\
    post_v1_chat Sample.gateway (Sample.turn_request (VStr "t-1"))
      (Sample.boot Sample.db0 (Sample.outage_after 3)) =
    (Ok (Response 500
           (ErrorBody "Something went wrong on my end. Try again in a sec." None)),
     s').
Proof.
  do 6 eexists.
  split; [vm_compute; reflexivity |].
  split; [vm_compute; reflexivity |].
  split; vm_compute; reflexivity.
Qed.

Lemma llm_refusal_fails_request_witness :
  exists s',
    post_v1_chat Sample.refused_gateway (Sample.turn_request (VStr "t-1"))
      (Sample.boot Sample.db0 []) =
    (Ok (Response 500
           (ErrorBody "Something went wrong on my end. Try again in a sec." None)),
     s') /\
    messages (store s') = messages Sample.db0.
Proof.
  edestruct (llm_refusal_fails_request Sample.refused_gateway
               (Sample.turn_request (VStr "t-1")) "c" (Sample.boot Sample.db0 []))
    as (s' & Hrun & Hmsgs & _).
  - now apply turn_request_valid.
  - vm_compute. reflexivity.
  - reflexivity.
  - reflexivity.
  - reflexivity.
  - exists s'. split; [exact Hrun | exact Hmsgs].
Defined.

(** The provider refused the turn and the store is not as it was: the thread
    named by the request was created before the call and stays. *)
Lemma refused_turn_leaves_new_thread :
  exists s',
    post_v1_chat Sample.refused_gateway (Sample.turn_request (VStr "t-9"))
      (Sample.boot Sample.db0 []) =
    (Ok (Response 500
           (ErrorBody "Something went wrong on my end. Try again in a sec." None)),
     s') /\
    threads (store s') =
      threads Sample.db0 ++ [ThreadRow "t-9" (Some "u@x.com") None 100 100] /\
    store s' <> store (Sample.boot Sample.db0 []).
Proof.
  eexists. split; [vm_compute; reflexivity |]. split; [reflexivity |]. discriminate.
Qed.

(** ** What the provider is sent *)

Section Conversation.

Variable E : externals.
Implicit Types (req : request) (s : state).

(** Under the foreign key, a name that is not a thread has no messages. *)
Lemma no_thread_no_messages d id :
  referential d -> Sql.thread_exists d id = false ->
  Sql.thread_messages d (Some id) = [].
Proof.
  intros Hfk Hno. unfold Sql.thread_messages.
  assert (filter (fun m => m_thread_id m = Some id) (messages d) = []) as ->;
    [| reflexivity].
  destruct (filter _ (messages d)) as [|x l] eqn:Hf; [reflexivity |].
  assert (x ∈ filter (fun m => m_thread_id m = Some id) (messages d)) as Hx
    by (rewrite Hf; left).
  apply list_elem_of_filter in Hx as [Hid Hin].
  rewrite (Hfk x id Hin Hid) in Hno. discriminate.
Qed.

(** The history [getOrCreateThread] resolves to is the stored history of the
    thread it resolves to. *)
Lemma getOrCreateThread_history requested userEmail s th s1 :
  available E s -> referential (store s) ->
  (truthy requested = false ->
   Sql.thread_exists (store s) (uuid_of E (uuids s)) = false) ->
  getOrCreateThread E requested userEmail s = (Ok th, s1) ->
  thread_history th =
    List.map as_msg (Sql.thread_messages (store s) (pg_param E (threadId th))).
Proof.
  intros Hav Hfk Hfresh Hrun. destruct (truthy requested) eqn:Ht.
  - destruct (truthy_pg_param E requested Ht) as [id Hid].
    destruct (Sql.thread_exists (store s) id) eqn:Hex.
    + rewrite (getOrCreateThread_existing E _ _ _ _ Hav Ht Hid Hex) in Hrun.
      inversion Hrun; subst. cbn [threadId thread_history]. now rewrite Hid.
    + rewrite (getOrCreateThread_unknown_run E _ _ _ _ Hav Ht Hid Hex) in Hrun.
      destruct (Sql.insert_thread _ _ _ _) as [[[] d] | e]; [| discriminate].
      inversion Hrun; subst. cbn [threadId thread_history]. rewrite Hid.
      now rewrite (no_thread_no_messages _ _ Hfk Hex).
  - rewrite (getOrCreateThread_unnamed_run E _ _ _ Hav Ht) in Hrun.
    destruct (Sql.insert_thread _ _ _ _) as [[[] d] | e]; [| discriminate].
    inversion Hrun; subst. cbn [threadId thread_history pg_param].
    now rewrite (no_thread_no_messages _ _ Hfk (Hfresh eq_refl)).
Qed.

(** C5: when a chat request is answered 200, exactly one request went to the
    provider during the turn, and its message sequence is the history that
    [getOrCreateThread] resolved to followed by the new user message as the
    last entry, every entry keeping its content, a [user] role staying [user]
    and any other role becoming [assistant].  That history is the stored
    history of the thread when the store is available (the foreign key
    holding and a generated identifier being new), and empty in degraded
    mode. *)
Theorem chat_sends_whole_history req (m : string) s b s' :
  valid_chat E req m ->
  post_v1_chat E req s = (Ok (Response 200 b), s') ->
  exists th s1,
    getOrCreateThread E (property (body req) "threadId")
      (property (body req) "userEmail") s = (Ok th, s1) /\
    (exists sent_request,
       llm_calls s' = llm_calls s ++ [sent_request] /\
       api_messages sent_request =
         List.map
           (fun x => Msg (if String.eqb (role x) "user" then "user" else "assistant")
                       (content x))
           (thread_history th ++ [Msg "user" (VStr m)]) /\
       last (api_messages sent_request) = Some (Msg "user" (VStr m))) /\
    (available E s -> referential (store s) ->
     (truthy (property (body req) "threadId") = false ->
      Sql.thread_exists (store s) (uuid_of E (uuids s)) = false) ->
     thread_history th =
       List.map as_msg (Sql.thread_messages (store s) (pg_param E (threadId th)))) /\
    (degraded E s -> thread_history th = []).
Proof.
  intros Hvalid Hrun.
  rewrite (post_v1_chat_valid E req m s Hvalid) in Hrun. unfold try_catch in Hrun.
  destruct (chat_turn E (property (body req) "userEmail") (VStr m)
              (property (body req) "threadId") s) as [[r|e] s2] eqn:Hturn.
  2: { rewrite chat_catch_run in Hrun. discriminate. }
  inversion Hrun; subst; clear Hrun.
  apply chat_turn_ok_inv in Hturn as (th & s1 & reply & s2 & Hth & Hllm & Hp & _).
  exists th, s1. split; [exact Hth |]. split; [| split].
  - eexists. split; [| split].
    + pose proof (getOrCreateThread_llm E (property (body req) "threadId")
                    (property (body req) "userEmail") s) as H1.
      rewrite Hth in H1. simpl in H1.
      pose proof (callLLM_ok_sent E _ _ _ _ _ Hllm) as ->.
      unfold persist in Hp. bind_inv Hp.
      pose proof (saveMessage_llm E (threadId th) "user" (VStr m)
                    (sent (completion_request E
                             (thread_history th ++ [Msg "user" (VStr m)])
                             (property (body req) "userEmail")) s1)) as H2.
      rewrite Hc in H2. simpl in H2.
      pose proof (saveMessage_llm E (threadId th) "assistant" reply s0) as H3.
      rewrite Hp in H3. simpl in H3.
      rewrite H3, H2, H1. reflexivity.
    + reflexivity.
    + simpl. rewrite List.map_app. simpl. now rewrite last_snoc.
  - intros Hav Hfk Hfresh.
    now apply (getOrCreateThread_history _ _ _ _ _ Hav Hfk Hfresh Hth).
  - intros Hd. rewrite (getOrCreateThread_degraded E _ _ _ Hd) in Hth.
    destruct (truthy (property (body req) "threadId")); now inversion Hth.
Qed.

End Conversation.

Lemma chat_sends_whole_history_witness :
  exists s' sent_request,
    post_v1_chat Sample.gateway (Sample.turn_request (VStr "t-1"))
      (Sample.boot Sample.db0 []) =
      (Ok (Response 200 (ChatBody (VStr "pong") (VStr "t-1"))), s') /\
    llm_calls s' = [sent_request] /\
    api_messages sent_request =
      [Msg "user" (VStr "a"); Msg "assistant" (VStr "b"); Msg "user" (VStr "c")].
Proof.
  destruct (post_v1_chat Sample.gateway (Sample.turn_request (VStr "t-1"))
              (Sample.boot Sample.db0 [])) as [r s'] eqn:Hrun.
  assert (r = Ok (Response 200 (ChatBody (VStr "pong") (VStr "t-1")))) as ->.
  { apply (f_equal fst) in Hrun. vm_compute in Hrun. now subst r. }
  destruct (chat_sends_whole_history Sample.gateway _ "c" _ _ _
              (turn_request_valid Sample.gateway (VStr "t-1") eq_refl) Hrun)
    as (th & s1 & Hth & (q & Hcalls & Hmsgs & _) & _).
  apply (f_equal fst) in Hth. vm_compute in Hth. inversion Hth; subst th.
  exists s', q. split; [reflexivity |]. split; [exact Hcalls | exact Hmsgs].
Defined.

(** ** Listing the threads of a user *)

Lemma StronglySorted_take {A} (R : relation A) (l : list A) n :
  StronglySorted R l -> StronglySorted R (take n l).
Proof.
  intros H. rewrite <- (take_drop n l) in H.
  now apply StronglySorted_app_1_l in H.
Qed.

Lemma StronglySorted_fmap {A B} (R : relation A) (R' : relation B) (g : A -> B)
    (l : list A) :
  (forall a b, R a b -> R' (g a) (g b)) ->
  StronglySorted R l -> StronglySorted R' (List.map g l).
Proof.
  intros Hg. induction 1 as [|x l Hl IH Hx]; simpl; constructor.
  - exact IH.
  - apply Forall_forall. intros y Hy.
    apply list_elem_of_In, List.in_map_iff in Hy as (a & <- & Ha).
    apply Hg. rewrite Forall_forall in Hx. now apply Hx, list_elem_of_In.
Qed.

(** A list in descending order whose keys are pairwise distinct is in
    strictly descending order. *)
Lemma StronglySorted_strict (l : list thread_summary) :
  StronglySorted (fun a b => (ts_updated_at b <= ts_updated_at a)%Z) l ->
  NoDup (List.map ts_updated_at l) ->
  StronglySorted (fun a b => (ts_updated_at b < ts_updated_at a)%Z) l.
Proof.
  induction 1 as [|x l Hl IH Hx]; intros Hnd; constructor.
  - apply IH. now inversion Hnd.
  - apply Forall_forall. intros y Hy.
    rewrite Forall_forall in Hx. specialize (Hx y Hy).
    simpl in Hnd. apply NoDup_cons in Hnd as [Hnotin _].
    assert (ts_updated_at y <> ts_updated_at x); [| lia].
    intros Heq. apply Hnotin. rewrite <- Heq.
    apply list_elem_of_In, List.in_map, list_elem_of_In, Hy.
Qed.

Section Listing.

Variable E : externals.
Implicit Types (req : request) (s : state).

Lemma query_limit_default req :
  query req !! "limit" = None -> parseInt (query_limit req) = Finite 20.
Proof. unfold query_limit, property. intros ->. vm_compute. reflexivity. Qed.

Lemma user_threads_owned d u t :
  t ∈ Sql.user_threads d (Some u) -> t ∈ threads d /\ t_user_email t = Some u.
Proof.
  unfold Sql.user_threads. rewrite merge_sort_Permutation.
  rewrite list_elem_of_filter. tauto.
Qed.

Lemma user_threads_sorted d u : StronglySorted updated_ge (Sql.user_threads d u).
Proof.
  unfold Sql.user_threads. destruct u; [| constructor].
  apply StronglySorted_merge_sort;
    [apply updated_ge_trans | apply updated_ge_total].
Qed.

Lemma threads_handler_lists req s n :
  available E s ->
  truthy (property (query req) "userEmail") = true ->
  parseInt (query_limit req) = Finite n ->
  (0 <= n <= 9007199254740991)%Z ->
  threads_handler E req s =
    (Ok (Response 200
           (ThreadsBody
              (List.map as_summary
                 (take (Z.to_nat n)
                    (Sql.user_threads (store s)
                       (pg_param E (property (query req) "userEmail"))))))),
     stepped (store s) (connected s)).
Proof.
  intros Hav Hu Hn Hrange. pose proof Hav as [_ Hcalm].
  apply calm_connected in Hcalm.
  unfold threads_handler, try_catch.
  rewrite (bind_ok _ _ _ _ _ (getDb_available E s Hav)). rewrite Hu. simpl.
  unfold bind. rewrite (db_query_calm _ _ Hcalm).
  rewrite Hn, (select_user_threads_safe _ n _ _ Hrange).
  now rewrite connected_store.
Qed.

(** C8, as amended: with the store available, a listing for a given
    [userEmail] with a limit that [parseInt] reads as an integer [n] from 0
    to 2^53 - 1, the integers that a Number holds exactly (20 when the query
    has no [limit]), answers at most [n] threads, all of them threads of the
    store owned by that user, in descending order of last-updated time:
    never an earlier-updated thread before a later-updated one, threads with
    equal times in either order, and in strictly descending order when the
    returned times are pairwise distinct. *)
Theorem threads_listing req s n :
  authenticated E req ->
  available E s ->
  truthy (property (query req) "userEmail") = true ->
  parseInt (query_limit req) = Finite n ->
  (0 <= n <= 9007199254740991)%Z ->
  exists rows s',
    get_v1_threads E req s =
      (Ok (Response 200 (ThreadsBody (List.map as_summary rows))), s') /\
    (Z.of_nat (length (List.map as_summary rows)) <= n)%Z /\
    (query req !! "limit" = None -> n = 20%Z) /\
    Forall (fun t => t ∈ threads (store s) /\
                     t_user_email t = pg_param E (property (query req) "userEmail"))
      rows /\
    StronglySorted (fun a b => (ts_updated_at b <= ts_updated_at a)%Z)
      (List.map as_summary rows) /\
    (NoDup (List.map ts_updated_at (List.map as_summary rows)) ->
     StronglySorted (fun a b => (ts_updated_at b < ts_updated_at a)%Z)
       (List.map as_summary rows)).
Proof.
  intros Hauth Hav Hu Hn Hrange.
  destruct (truthy_pg_param E _ Hu) as [u Hparam].
  eexists _, _. split.
  { unfold get_v1_threads. rewrite (authenticateRequest_match E req _ s Hauth).
    apply (threads_handler_lists req s n Hav Hu Hn Hrange). }
  assert (StronglySorted (fun a b => (ts_updated_at b <= ts_updated_at a)%Z)
            (List.map as_summary
               (take (Z.to_nat n)
                  (Sql.user_threads (store s)
                     (pg_param E (property (query req) "userEmail")))))) as Hsorted.
  { apply (StronglySorted_fmap updated_ge); [now intros a b |].
    apply StronglySorted_take, user_threads_sorted. }
  split; [| split; [| split; [| split]]].
  - rewrite List.length_map, length_take. lia.
  - intros Hnone. rewrite (query_limit_default req Hnone) in Hn. congruence.
  - rewrite Hparam. apply Forall_forall. intros t Ht.
    apply (user_threads_owned (store s) u t).
    now apply (subseteq_take (Z.to_nat n)).
  - exact Hsorted.
  - now apply StronglySorted_strict.
Qed.

End Listing.

Lemma threads_listing_witness :
  exists s',
    get_v1_threads Sample.gateway
      (Sample.list_request {[ "userEmail" := VStr "u@x.com"; "limit" := VStr "2" ]})
      (Sample.boot Sample.db0 []) =
    (Ok (Response 200
           (ThreadsBody [ThreadSummary "t-4" None 26 40; ThreadSummary "t-1" None 10 30])),
     s').
Proof.
  destruct (threads_listing Sample.gateway
              (Sample.list_request {[ "userEmail" := VStr "u@x.com"; "limit" := VStr "2" ]})
              (Sample.boot Sample.db0 []) 2)
    as (rows & s' & Hrun & _).
  - exists "s3cret". repeat split. discriminate.
  - split; [reflexivity | constructor].
  - reflexivity.
  - vm_compute. reflexivity.
  - lia.
  - exists s'.
    assert ((get_v1_threads Sample.gateway
               (Sample.list_request {[ "userEmail" := VStr "u@x.com"; "limit" := VStr "2" ]})
               (Sample.boot Sample.db0 [])).1 =
            Ok (Response 200
                  (ThreadsBody
                     [ThreadSummary "t-4" None 26 40; ThreadSummary "t-1" None 10 30])))
      as Hfirst by (vm_compute; reflexivity).
    rewrite Hrun in Hfirst. cbn [fst] in Hfirst.
    rewrite Hrun. now rewrite Hfirst.
Defined.

(** Two threads of the user were last updated at the same time: the listing
    is in descending order but not in strictly descending order. *)
Lemma listing_with_equal_times :
  exists s',
    get_v1_threads Sample.gateway
      (Sample.list_request {[ "userEmail" := VStr "u@x.com" ]})
      (Sample.boot Sample.db0 []) =
    (Ok (Response 200
           (ThreadsBody
              [ThreadSummary "t-4" None 26 40; ThreadSummary "t-1" None 10 30;
               ThreadSummary "t-2" None 20 30])),
     s') /\
    ~ StronglySorted (fun a b => (ts_updated_at b < ts_updated_at a)%Z)
        [ThreadSummary "t-4" None 26 40; ThreadSummary "t-1" None 10 30;
         ThreadSummary "t-2" None 20 30].
Proof.
  eexists. split; [vm_compute; reflexivity |].
  intros H. inversion H as [|? ? H1 _]; subst.
  inversion H1 as [|? ? _ H2]; subst.
  inversion H2 as [|? ? H3 _]; subst. simpl in H3. lia.
Qed.

(** ** Invariants of the server state

    The hypotheses of the statements above on the state ([referential], and
    [pool = false] in degraded mode) hold in every state the routes can
    reach from a state in which they hold. *)

Section Keeping.

Variable E : externals.
Variable P : state -> Prop.
Hypothesis P_stable : stable P.

Lemma keeps_print line : keeps P (print line).
Proof. intros s Hs. now apply P_stable. Qed.

Lemma keeps_uuidv4 : keeps P (uuidv4 E).
Proof. intros s Hs. now apply P_stable. Qed.

Lemma keeps_fetch req : keeps P (fetch E req).
Proof.
  intros s Hs. unfold fetch.
  destruct (provider E (length (llm_calls s)) req); now apply P_stable.
Qed.

Lemma keeps_db_query {A} (stmt : Sql.statement A) :
  (forall s a d, P s -> stmt (tick s) (store s) = Ok (a, d) -> P (stepped d s)) ->
  keeps P (db_query stmt).
Proof.
  intros Hrun s Hs. rewrite db_query_unfold.
  destruct (raises (next_step s)); [now apply P_stable |].
  destruct (stmt (tick s) (store s)) as [[a d]|e] eqn:Hstmt.
  - now apply (Hrun s a d).
  - now apply P_stable.
Qed.

Lemma keeps_read {A} (stmt : Sql.statement A) :
  read_only stmt -> keeps P (db_query stmt).
Proof.
  intros Hro. apply keeps_db_query. intros s a d Hs Hstmt.
  rewrite (Hro _ _ _ _ Hstmt). now apply P_stable.
Qed.

End Keeping.

(** Decomposes an invariance goal along the structure of the computation;
    [leaf] closes the goals on [getDb] and on the writing statements. *)
Ltac invariant stable_lemma leaf :=
  repeat first
    [ progress intros
    | apply keeps_ret
    | apply keeps_throw
    | apply keeps_lift
    | apply keeps_bind
    | apply keeps_try_catch
    | apply keeps_print; apply stable_lemma
    | apply keeps_uuidv4; apply stable_lemma
    | apply keeps_fetch; apply stable_lemma
    | apply keeps_read;
        [ apply stable_lemma
        | first [ apply create_schema_read_only | apply select_thread_read_only
                | apply select_messages_read_only
                | apply select_messages_dated_read_only
                | apply select_user_threads_read_only ] ]
    | leaf
    | match goal with
      | |- keeps _ (if ?b then _ else _) => destruct b
      | |- keeps _ (match ?x with _ => _ end) => destruct x
      end ].

Section PoolInvariant.

Variable E : externals.

Lemma pool_configured_stable : stable (pool_configured E).
Proof. repeat split; intros; assumption. Qed.

Lemma pool_configured_write {A} (stmt : Sql.statement A) :
  keeps (pool_configured E) (db_query stmt).
Proof.
  apply keeps_db_query; [apply pool_configured_stable |].
  intros s a d Hs _. exact Hs.
Qed.

Lemma getDb_pool_configured : keeps (pool_configured E) (getDb E).
Proof.
  intros s Hs.
  destruct (getDb_cases E s) as [-> | (_ & Hurl & [[-> _] | (r & _ & ->)])];
    [exact Hs | |]; intros _; exact Hurl.
Qed.

Lemma routes_keep_pool_configured req :
  keeps (pool_configured E) (post_v1_chat E req) /\
  keeps (pool_configured E) (get_v1_thread E req) /\
  keeps (pool_configured E) (get_v1_threads E req).
Proof.
  unfold post_v1_chat, get_v1_thread, get_v1_threads, authenticateRequest,
    chat_handler, thread_handler, threads_handler, chat_catch, threads_catch,
    chat_turn, getOrCreateThread, saveMessage, callLLM, or_uuidv4.
  repeat split;
    invariant pool_configured_stable
      ltac:(first [apply getDb_pool_configured | apply pool_configured_write]).
Qed.

(** Degraded mode is for the life of the process. *)
Lemma degraded_forever req s :
  degraded E s ->
  degraded E (post_v1_chat E req s).2 /\
  degraded E (get_v1_thread E req s).2 /\
  degraded E (get_v1_threads E req s).2.
Proof.
  intros [Hurl Hpool].
  assert (pool_configured E s) as Hs by (intros H; congruence).
  destruct (routes_keep_pool_configured req) as (H1 & H2 & H3).
  assert (forall s', pool_configured E s' -> degraded E s') as Hback.
  { intros s' H. split; [exact Hurl |].
    destruct (pool s') eqn:Hp; [| reflexivity]. specialize (H Hp). congruence. }
  split; [| split]; apply Hback; [apply H1 | apply H2 | apply H3]; exact Hs.
Qed.

End PoolInvariant.

Section ForeignKey.

Variable E : externals.

Lemma thread_exists_grows d rows ms id :
  Sql.thread_exists d id = true ->
  Sql.thread_exists (Database (threads d ++ rows) ms) id = true.
Proof.
  unfold Sql.thread_exists. rewrite !bool_decide_eq_true. simpl.
  rewrite Exists_app. tauto.
Qed.

Lemma thread_exists_touched d id stamp ms who :
  Sql.thread_exists
    (Database
       (List.map (fun r =>
          if bool_decide (Some (t_id r) = who)
          then ThreadRow (t_id r) (t_user_email r) (t_title r) (t_created_at r) stamp
          else r) (threads d)) ms) id
  = Sql.thread_exists d id.
Proof.
  unfold Sql.thread_exists. apply bool_decide_ext. simpl.
  rewrite !Exists_exists. split.
  - intros (t & Hin & Ht).
    apply list_elem_of_In, List.in_map_iff in Hin as (r & <- & Hr).
    exists r. split; [now apply list_elem_of_In |].
    now destruct (bool_decide (Some (t_id r) = who)).
  - intros (r & Hin & Hr).
    eexists. split.
    + apply list_elem_of_In, List.in_map, list_elem_of_In, Hin.
    + now destruct (bool_decide (Some (t_id r) = who)).
Qed.

Lemma read_only_keeps_referential {A} (stmt : Sql.statement A) :
  read_only stmt -> keeps_referential stmt.
Proof. intros Hro t d a d' Hfk Hs. now rewrite (Hro _ _ _ _ Hs). Qed.

Lemma insert_thread_keeps_referential id u :
  keeps_referential (Sql.insert_thread id u).
Proof.
  intros t d a d' Hfk H.
  apply insert_thread_ok_inv in H as (key & owner & _ & _ & [[_ ->] | [_ ->]]);
    [exact Hfk |].
  intros m tid Hin Htid. apply thread_exists_grows. now apply (Hfk m).
Qed.

Lemma insert_message_keeps_referential id thread role content :
  keeps_referential (Sql.insert_message id thread role content).
Proof.
  intros t d a d' Hfk. unfold Sql.insert_message.
  destruct content as [content|]; [| discriminate].
  destruct (Sql.message_exists d id); [discriminate |].
  destruct thread as [tid|].
  - destruct (Sql.thread_exists d tid) eqn:Hex; [| discriminate].
    intros [= _ <-]. intros m tid' Hin Htid. simpl in Hin.
    apply elem_of_app in Hin as [Hin | Hin].
    + now apply (Hfk m).
    + apply list_elem_of_singleton in Hin. subst m. simpl in Htid.
      injection Htid as <-. exact Hex.
  - intros [= _ <-]. intros m tid' Hin Htid. simpl in Hin.
    apply elem_of_app in Hin as [Hin | Hin].
    + now apply (Hfk m).
    + apply list_elem_of_singleton in Hin. subst m. discriminate.
Qed.

Lemma touch_thread_keeps_referential id : keeps_referential (Sql.touch_thread id).
Proof.
  intros t d a d' Hfk. unfold Sql.touch_thread. intros [= _ <-].
  intros m tid Hin Htid. rewrite thread_exists_touched. now apply (Hfk m).
Qed.

Lemma referential_stable : stable (fun s => referential (store s)).
Proof. repeat split; intros; assumption. Qed.

Lemma referential_write {A} (stmt : Sql.statement A) :
  keeps_referential stmt -> keeps (fun s => referential (store s)) (db_query stmt).
Proof.
  intros Hk. apply keeps_db_query; [apply referential_stable |].
  intros s a d Hs Hstmt. simpl. now apply (Hk _ _ _ _ Hs Hstmt).
Qed.

Lemma getDb_referential : keeps (fun s => referential (store s)) (getDb E).
Proof. intros s Hs. now rewrite getDb_store. Qed.

(** The routes keep the foreign key of [messages]. *)
Lemma routes_keep_referential req :
  keeps (fun s => referential (store s)) (post_v1_chat E req) /\
  keeps (fun s => referential (store s)) (get_v1_thread E req) /\
  keeps (fun s => referential (store s)) (get_v1_threads E req).
Proof.
  unfold post_v1_chat, get_v1_thread, get_v1_threads, authenticateRequest,
    chat_handler, thread_handler, threads_handler, chat_catch, threads_catch,
    chat_turn, getOrCreateThread, saveMessage, callLLM, or_uuidv4.
  repeat split;
    invariant referential_stable
      ltac:(first
              [ apply getDb_referential
              | apply referential_write;
                first [ apply insert_thread_keeps_referential
                      | apply insert_message_keeps_referential
                      | apply touch_thread_keeps_referential ] ]).
Qed.

End ForeignKey.

(** A limit the store rejects fails the listing. *)
Lemma threads_handler_bad_limit E req s :
  available E s ->
  truthy (property (query req) "userEmail") = true ->
  (forall n, parseInt (query_limit req) = Finite n ->
             (n < 0 \/ 9223372036854775807 < n)%Z) ->
  (threads_handler E req s).1 =
    Ok (Response 500 (ErrorBody "Failed to fetch threads" None)).
Proof.
  intros Hav Hu Hlimit. pose proof Hav as [_ Hcalm].
  apply calm_connected in Hcalm.
  unfold threads_handler, try_catch.
  rewrite (bind_ok _ _ _ _ _ (getDb_available E s Hav)). rewrite Hu. simpl.
  unfold bind. rewrite (db_query_calm _ _ Hcalm).
  destruct (select_user_threads_refused
              (pg_param E (property (query req) "userEmail"))
              (parseInt (query_limit req)) (tick (connected s)) (store (connected s))
              Hlimit) as [e ->].
  reflexivity.
Qed.

(** ** Sample runs *)

Example parseInt_samples :
  parseInt (VStr "  42px") = Finite 42 /\ parseInt (VStr "-7") = Finite (-7) /\
  parseInt (VStr "0x1f") = Finite 31 /\ parseInt (VStr "abc") = NaN /\
  parseInt (VStr "") = NaN /\ parseInt (VNum 20) = Finite 20 /\
  parseInt (VArr [VStr "3"; VStr "9"]) = Finite 3.
Proof. vm_compute. repeat split. Qed.

(** A no-break space (U+00A0) before the digits is skipped, as a byte order
    mark (U+FEFF) is. *)
Example parseInt_skips_unicode_space :
  parseInt (VStr (String (ascii_of_nat 194) (String (ascii_of_nat 160) "2"))) = Finite 2 /\
  parseInt (VStr (String (ascii_of_nat 239)
                    (String (ascii_of_nat 187) (String (ascii_of_nat 191) " 7")))) =
    Finite 7.
Proof. vm_compute. split; reflexivity. Qed.

(** The digits of 2^63 - 1 denote the double 2^63, and a Number from 1e21 is
    printed in exponent form. *)
Example numbers_are_doubles :
  parseInt (VStr "9223372036854775807") = Finite 9223372036854775808 /\
  parseInt (VStr "9007199254740993") = Finite 9007199254740992 /\
  to_string (VNum 9223372036854775807) = "9223372036854776000" /\
  to_string (VNum 1000000000000000000000) = "1e+21" /\
  to_string (VNum 123456789012345678901234567890) = "1.2345678901234568e+29" /\
  parseInt (VNum 1000000000000000000000) = Finite 1.
Proof. vm_compute. repeat split. Qed.

(** A limit of 2^63 - 1 reaches the store as 9223372036854776000, the text of
    the double 2^63, which it refuses. *)
Example listing_limit_rounds :
  (get_v1_threads Sample.gateway
     (Sample.list_request
        {[ "userEmail" := VStr "u@x.com"; "limit" := VStr "9223372036854775807" ]})
     (Sample.boot Sample.db0 [])).1 =
    Ok (Response 500 (ErrorBody "Failed to fetch threads" None)).
Proof. vm_compute. reflexivity. Qed.

(** A first turn on a new thread stores the user message, then the reply. *)
Example first_turn_stores_both :
  let after :=
    (post_v1_chat Sample.gateway (Sample.turn_request (VStr "t-9"))
       (Sample.boot (Database [] []) [DbStep None 5; DbStep None 5; DbStep None 5;
                                      DbStep None 5; DbStep None 5; DbStep None 5])).2 in
  messages (store after) =
    [MessageRow "uuid-0" (Some "t-9") "user" "c" 120;
     MessageRow "uuid-1" (Some "t-9") "assistant" "pong" 130] /\
  threads (store after) = [ThreadRow "t-9" (Some "u@x.com") None 115 130].
Proof. split; vm_compute; reflexivity. Qed.

(** Without a store the chat still answers, and a thread reads as empty. *)
Example stateless_gateway_answers :
  (post_v1_chat Sample.stateless_gateway (Sample.turn_request VUndefined)
     (Sample.boot (Database [] []) [])).1 =
    Ok (Response 200 (ChatBody (VStr "pong") (VStr "uuid-0"))) /\
  (get_v1_thread Sample.stateless_gateway
     (Request {[ "x-bochat-api-key" := "s3cret" ]} "10.0.0.7" ∅ {[ "threadId" := "t-1" ]} ∅)
     (Sample.boot Sample.db0 [])).1 =
    Ok (Response 200 (ThreadBody (VStr "t-1") [])).
Proof. split; vm_compute; reflexivity. Qed.

(** * Further properties of the source *)

(** ** The CORS allow-list *)

Lemma split_comma_nonempty s : split_comma s <> [].
Proof.
  destruct s as [|c rest]; simpl; [discriminate |].
  destruct (Ascii.eqb c ","); [discriminate |].
  destruct (split_comma rest); discriminate.
Qed.

Lemma ALLOWED_ORIGINS_nonempty env : ALLOWED_ORIGINS env <> [].
Proof.
  unfold ALLOWED_ORIGINS. destruct (env !! "ALLOWED_ORIGINS");
    [apply split_comma_nonempty | discriminate].
Qed.

Lemma prefix_spec n h : String.prefix n h = true <-> exists after, h = n +:+ after.
Proof.
  revert h. induction n as [|a n IH]; intros h; simpl.
  - destruct h; split; eauto.
  - destruct h as [|b h].
    + split; [discriminate | now intros (after & [=])].
    + cbn [String.prefix]. destruct (Ascii.ascii_dec a b) as [Heq | Hne].
      * subst b. rewrite IH. split; intros (after & H); exists after.
        -- cbn [String.append]. now rewrite H.
        -- cbn [String.append] in H. now injection H.
      * split; [discriminate |]. intros (after & H).
        cbn [String.append] in H. injection H as Hb _. congruence.
Qed.

Lemma includes_spec n h : includes n h = true <-> occurs_in n h.
Proof.
  unfold occurs_in. induction h as [|c h IH].
  - cbn [includes]. rewrite orb_false_r, prefix_spec. split.
    + intros (after & ->). now exists "", after.
    + intros ([|b before] & after & H); [now exists after |]. discriminate.
  - cbn [includes]. rewrite orb_true_iff, IH, prefix_spec. split.
    + intros [(after & ->) | (before & after & ->)].
      * now exists "", after.
      * now exists (String c before), after.
    + intros ([|b before] & after & H).
      * left. now exists after.
      * right. simpl in H. injection H as -> ->. now exists before, after.
Qed.

Section Cors.

Variable E : externals.

(** X1: a request with no [Origin], or with one that holds [.manus.computer] or
    [.manus.space] anywhere, or that equals an entry of the allow-list,
    passes; every other request is refused with [Not allowed by CORS] after
    a console warning.  The substring test does not depend on the list. *)
Theorem cors_origin_passes origin s :
  (cors_origin E origin s = (Ok tt, s) <->
   origin = None \/ origin = Some "" \/
   exists o, origin = Some o /\
     (o ∈ ALLOWED_ORIGINS (env E) \/ occurs_in ".manus.computer" o \/
      occurs_in ".manus.space" o)) /\
  (cors_origin E origin s = (Ok tt, s) \/
   cors_origin E origin s =
     (Throw (Error "Not allowed by CORS"),
      logged ("[CORS] Blocked origin: " +:+ default "" origin) s)).
Proof.
  unfold cors_origin.
  destruct (env_truthy origin) eqn:Ht; simpl.
  2: { apply env_truthy_false in Ht. split; [| now left].
       split; [intros _ | reflexivity]. destruct Ht; auto. }
  apply env_truthy_spec in Ht as (o & -> & Hne). simpl.
  assert (existsb (origin_matches o) (ALLOWED_ORIGINS (env E)) = true <->
          (o ∈ ALLOWED_ORIGINS (env E) \/ occurs_in ".manus.computer" o \/
           occurs_in ".manus.space" o)) as Hiff.
  { rewrite List.existsb_exists. unfold origin_matches. split.
    - intros (allowed & Hin & Hm).
      rewrite !orb_true_iff, !includes_spec in Hm.
      destruct Hm as [[Heq | H] | H]; auto.
      apply String.eqb_eq in Heq. subst. left. now apply list_elem_of_In.
    - intros [Hin | Hsub].
      + exists o. split; [now apply list_elem_of_In |].
        now rewrite String.eqb_refl.
      + destruct (ALLOWED_ORIGINS (env E)) as [|first rest] eqn:Hl;
          [now apply ALLOWED_ORIGINS_nonempty in Hl |].
        exists first. split; [now left |].
        rewrite !orb_true_iff, !includes_spec. tauto. }
  destruct (existsb (origin_matches o) (ALLOWED_ORIGINS (env E))) eqn:Hex.
  - split; [| now left]. split; [intros _ | reflexivity].
    right. right. exists o. split; [reflexivity |]. now apply Hiff.
  - split; [| now right]. split; [discriminate |].
    intros [Hn | [Hn | (o' & [= <-] & H)]]; try discriminate.
    + congruence.
    + apply Hiff in H. discriminate.
Qed.

End Cors.

Lemma cors_origin_passes_witness :
  cors_origin Sample.gateway (Some "https://x.manus.space.example.org")
    (Sample.boot Sample.db0 []) = (Ok tt, Sample.boot Sample.db0 []).
Proof.
  apply (cors_origin_passes Sample.gateway). right. right.
  eexists. split; [reflexivity |]. right. right.
  exists "https://x", ".example.org". reflexivity.
Defined.

(** ** The pool *)

Section Pool.

Variable E : externals.
Implicit Types (s : state).

(** X2: when the schema batch of the first [getDb()] raises, the call rejects but
    the pool it created stays: the next [getDb()] resolves to that pool at
    once, without running the batch again. *)
Theorem getDb_never_retries s reason :
  pool s = false ->
  env_truthy (DATABASE_URL (CONFIG (env E))) = true ->
  raises (next_step s) = Some reason ->
  exists s1,
    getDb E s = (Throw (Error reason), s1) /\
    pool s1 = true /\ store s1 = store s /\ console s1 = console s /\
    getDb E s1 = (Ok true, s1).
Proof.
  intros Hpool Hurl Hraise.
  exists (stepped (store s) (set_pool true s)).
  rewrite (getDb_connect E s Hpool Hurl), Hraise.
  split; [reflexivity |]. split; [reflexivity |]. split; [reflexivity |].
  split; [reflexivity |]. now apply getDb_ready.
Qed.

(** X3: start-up never fails: the callback of [app.listen] resolves whatever the
    store answers, without a call to the provider or to [uuidv4]; with
    [DATABASE_URL] set it leaves a pool behind, whether or not the schema
    batch went through, and with none set it leaves the pool as it was. *)
Theorem on_listen_resolves s :
  exists s',
    on_listen E s = (Ok tt, s') /\
    llm_calls s' = llm_calls s /\ uuids s' = uuids s /\
    (env_truthy (DATABASE_URL (CONFIG (env E))) = true -> pool s' = true) /\
    (env_truthy (DATABASE_URL (CONFIG (env E))) = false -> pool s' = pool s).
Proof.
  unfold on_listen. unfold bind at 1. unfold print at 1. unfold bind at 1.
  unfold print at 1. unfold try_catch, bind.
  set (s2 := State _ _ _ _ _ _ _).
  assert (uuids s2 = uuids s /\ llm_calls s2 = llm_calls s /\ pool s2 = pool s)
    as (Hst & Hllm & Hp) by (subst s2; auto).
  destruct (getDb_cases E s2) as [Hg | (Hpool & Hurl & [[Hg _] | (r & _ & Hg)])];
    rewrite Hg.
  - exists s2. split; [reflexivity |]. split; [exact Hllm |]. split; [exact Hst |].
    split.
    + intros Hurl. destruct (pool s2) eqn:Hp2; [reflexivity |].
      rewrite (getDb_connect E s2 Hp2 Hurl) in Hg.
      destruct (raises (next_step s2)); discriminate.
    + intros _. exact Hp.
  - exists (connected s2). split; [reflexivity |].
    rewrite connected_uuids, connected_llm.
    split; [exact Hllm |]. split; [exact Hst |]. split.
    + intros _. apply connected_pool.
    + congruence.
  - eexists. split; [reflexivity |].
    split; [exact Hllm |]. split; [exact Hst |]. split; [reflexivity | congruence].
Qed.

End Pool.

Lemma getDb_never_retries_witness :
  exists s1,
    getDb Sample.gateway (Sample.boot Sample.db0 (Sample.outage_after 0)) =
      (Throw (Error "Connection terminated unexpectedly"), s1) /\
    getDb Sample.gateway s1 = (Ok true, s1).
Proof.
  destruct (getDb_never_retries Sample.gateway
              (Sample.boot Sample.db0 (Sample.outage_after 0))
              "Connection terminated unexpectedly" eq_refl eq_refl eq_refl)
    as (s1 & Hfail & _ & _ & _ & Hnext).
  now exists s1.
Defined.

(** ** Saving a message *)

Section Saving.

Variable E : externals.
Implicit Types (s : state) (thread content : value) (role : string).

Lemma tick_later s : (now s <= tick s)%Z.
Proof. unfold tick. lia. Qed.

Lemma now_connected s : (now s <= now (connected s))%Z.
Proof.
  unfold connected. destruct (pool s); [lia |]. simpl.
  apply (tick_later (set_pool true s)).
Qed.



(** X4: with the store available, a message for an existing thread, under a new
    identifier, is appended as the last row of [messages], with the given
    role and content, and the thread's [updated_at] (and no other thread's)
    is set to the time of the second statement. *)
Theorem saveMessage_appends thread role content s text :
  available E s ->
  pg_param E content = Some text ->
  Sql.message_exists (store s) (uuid_of E (uuids s)) = false ->
  (forall t, pg_param E thread = Some t -> Sql.thread_exists (store s) t = true) ->
  exists s' t1 t2,
    saveMessage E thread role content s = (Ok tt, s') /\
    messages (store s') =
      messages (store s) ++
        [MessageRow (uuid_of E (uuids s)) (pg_param E thread) role text t1] /\
    threads (store s') = List.map (touched (pg_param E thread) t2) (threads (store s)) /\
    (now s <= t1 <= t2)%Z /\ uuids s' = S (uuids s).
Proof.
  intros Hav Htext Hfresh Hthread. pose proof Hav as [_ Hcalm].
  apply calm_connected in Hcalm.
  unfold saveMessage.
  rewrite (bind_ok _ _ _ _ _ (getDb_available E s Hav)). simpl.
  unfold bind at 1. unfold uuidv4 at 1. fold (drawn (connected s)).
  rewrite connected_uuids, Htext.
  assert (calm (drawn (connected s))) as Hcalm' by exact Hcalm.
  unfold bind. rewrite (db_query_calm _ _ Hcalm').
  unfold Sql.insert_message. cbn [store drawn]. rewrite connected_store, Hfresh.
  assert (match pg_param E thread with
          | Some tid => Sql.thread_exists (store s) tid
          | None => true
          end = true) as ->.
  { destruct (pg_param E thread) as [t|]; [now apply Hthread | reflexivity]. }
  rewrite (db_query_calm _ _ (calm_stepped _ _ Hcalm')).
  unfold Sql.touch_thread. eexists _, _, _. split; [reflexivity |].
  split; [reflexivity |]. split; [reflexivity |].
  split; [| cbn [uuids stepped drawn]; now rewrite connected_uuids].
  pose proof (now_connected s).
  pose proof (tick_later (connected s)).
  change (tick (drawn (connected s))) with (tick (connected s)).
  pose proof (tick_later (stepped
    (Database (threads (store s))
       (messages (store s) ++
          [MessageRow (uuid_of E (uuids s)) (pg_param E thread) role text
             (tick (connected s))])) (drawn (connected s)))) as H3.
  change (now (stepped _ (drawn (connected s)))) with (tick (connected s)) in H3.
  lia.
Qed.


(** X6: the two statements of [saveMessage] are not one transaction: when the
    [UPDATE] raises after the [INSERT] went through, [saveMessage] rejects
    and the inserted message stays. *)
Theorem saveMessage_no_rollback thread role content s text e1 reason e2 rest :
  pool s = true ->
  script s = DbStep None e1 :: DbStep (Some reason) e2 :: rest ->
  pg_param E content = Some text ->
  Sql.message_exists (store s) (uuid_of E (uuids s)) = false ->
  (forall t, pg_param E thread = Some t -> Sql.thread_exists (store s) t = true) ->
  exists s' t1,
    saveMessage E thread role content s = (Throw (Error reason), s') /\
    messages (store s') =
      messages (store s) ++
        [MessageRow (uuid_of E (uuids s)) (pg_param E thread) role text t1] /\
    threads (store s') = threads (store s).
Proof.
  intros Hpool Hscript Htext Hfresh Hthread.
  unfold saveMessage.
  rewrite (bind_ok _ _ _ _ _ (getDb_ready E s Hpool)). simpl.
  unfold bind at 1. unfold uuidv4 at 1. fold (drawn s). rewrite Htext.
  unfold bind. rewrite db_query_unfold.
  assert (next_step (drawn s) = DbStep None e1) as Hstep
    by (unfold next_step; simpl; now rewrite Hscript).
  rewrite Hstep. cbn [raises].
  unfold Sql.insert_message. cbn [store drawn]. rewrite Hfresh.
  assert (match pg_param E thread with
          | Some tid => Sql.thread_exists (store s) tid
          | None => true
          end = true) as ->.
  { destruct (pg_param E thread) as [t|]; [now apply Hthread | reflexivity]. }
  rewrite db_query_unfold.
  match goal with
  | |- context [next_step (stepped ?d (drawn s))] =>
      assert (next_step (stepped d (drawn s)) = DbStep (Some reason) e2) as Hstep2
        by (unfold next_step; simpl; now rewrite Hscript)
  end.
  rewrite Hstep2. cbn [raises].
  eexists _, _. split; [reflexivity |]. split; reflexivity.
Qed.

End Saving.

Lemma saveMessage_appends_witness :
  exists s' t1 t2,
    saveMessage Sample.gateway (VStr "t-2") "user" (VStr "hi")
      (Sample.boot Sample.db0 []) = (Ok tt, s') /\
    messages (store s') =
      messages Sample.db0 ++ [MessageRow "uuid-0" (Some "t-2") "user" "hi" t1] /\
    threads (store s') = List.map (touched (Some "t-2") t2) (threads Sample.db0).
Proof.
  destruct (saveMessage_appends Sample.gateway (VStr "t-2") "user" (VStr "hi")
              (Sample.boot Sample.db0 []) "hi")
    as (s' & t1 & t2 & Hrun & Hm & Ht & _).
  - split; [reflexivity | constructor].
  - reflexivity.
  - reflexivity.
  - intros t [= <-]. reflexivity.
  - now exists s', t1, t2.
Defined.


Lemma saveMessage_no_rollback_witness :
  exists s' t1,
    saveMessage Sample.gateway (VStr "t-2") "user" (VStr "hi")
      (State true Sample.db0 100 (Sample.outage_after 1) 0 [] []) =
      (Throw (Error "Connection terminated unexpectedly"), s') /\
    messages (store s') =
      messages Sample.db0 ++ [MessageRow "uuid-0" (Some "t-2") "user" "hi" t1] /\
    threads (store s') = threads Sample.db0.
Proof.
  apply (saveMessage_no_rollback Sample.gateway (VStr "t-2") "user" (VStr "hi")
           (State true Sample.db0 100 (Sample.outage_after 1) 0 [] [])
           "hi" 1%N "Connection terminated unexpectedly" 1%N []);
    try reflexivity.
  intros t [= <-]. reflexivity.
Defined.

(** ** What a successful turn leaves in the store *)

Section StoredTurn.

Variable E : externals.
Implicit Types (s : state) (req : request).









End StoredTurn.


(** ** Failures of the proxy *)

Section ProxyFailures.

Variable E : externals.
Implicit Types (s : state) (req : request).

(** X8: with no provider key configured, every valid chat request is answered
    with the apology, nothing is sent to the provider and no message is
    stored. *)
Theorem chat_without_llm_key req (m : string) s :
  valid_chat E req m ->
  env_truthy (LLM_API_KEY (CONFIG (env E))) = false ->
  exists details s',
    post_v1_chat E req s = (Ok (apology details), s') /\
    llm_calls s' = llm_calls s /\
    messages (store s') = messages (store s).
Proof.
  intros Hvalid Hkey.
  rewrite (post_v1_chat_valid E req m s Hvalid). unfold try_catch.
  pose proof (getOrCreateThread_llm E (property (body req) "threadId")
                (property (body req) "userEmail") s) as Hl.
  pose proof (getOrCreateThread_messages E (property (body req) "threadId")
                (property (body req) "userEmail") s) as Hm.
  destruct (getOrCreateThread E (property (body req) "threadId")
              (property (body req) "userEmail") s) as [[th|e] s1] eqn:Hth;
    simpl in Hl, Hm.
  - rewrite (chat_turn_llm_throws E _ _ _ _ _ _ _ _ Hth
               (callLLM_unconfigured E _ _ s1 Hkey)).
    rewrite chat_catch_run. eexists _, _. split; [reflexivity |]. now split.
  - rewrite (chat_turn_thread_throws E _ _ _ _ _ _ Hth).
    rewrite chat_catch_run. eexists _, _. split; [reflexivity |]. now split.
Qed.

(** [callLLM] never resolves to an empty reply. *)
Lemma callLLM_reply_truthy conversation userEmail s reply s' :
  callLLM E conversation userEmail s = (Ok reply, s') -> truthy reply = true.
Proof.
  intros H.
  destruct (env_truthy (LLM_API_KEY (CONFIG (env E)))) eqn:Hkey.
  - destruct (provider E (length (llm_calls s))
                (completion_request E conversation userEmail)) as [reason|r] eqn:Hp.
    + rewrite (callLLM_unreachable _ _ _ _ _ Hkey Hp) in H. discriminate.
    + destruct (ok r) eqn:Hok.
      * destruct (resp_json r) as [data|] eqn:Hjson.
        -- rewrite (callLLM_answered _ _ _ _ _ _ Hkey Hp Hok Hjson) in H.
           destruct (first_text data) as [text|e]; [| discriminate].
           injection H as <- _. unfold or_else.
           now destruct (truthy text) eqn:Ht.
        -- unfold callLLM in H. rewrite Hkey in H. simpl in H.
           unfold bind, fetch in H. rewrite Hp, Hok, Hjson in H. discriminate.
      * rewrite (callLLM_refused _ _ _ _ _ Hkey Hp Hok) in H. discriminate.
  - rewrite callLLM_unconfigured in H by assumption. discriminate.
Qed.

(** X9: whatever the request, an answer of the chat route that carries a reply
    has status 200 and a reply that is not empty. *)
Theorem chat_reply_never_empty req s st reply thread s' :
  post_v1_chat E req s = (Ok (Response st (ChatBody reply thread)), s') ->
  st = 200%Z /\ truthy reply = true.
Proof.
  unfold post_v1_chat, authenticateRequest.
  destruct (negb (env_truthy (headers req !! "x-bochat-api-key")));
    [discriminate |].
  destruct (negb (bool_decide (headers req !! "x-bochat-api-key" =
                               BOCHAT_API_KEY (CONFIG (env E)))));
    [discriminate |].
  unfold chat_handler, try_catch.
  destruct (negb (truthy (property (body req) "message"))
            || negb (is_string (property (body req) "message")));
    [discriminate |].
  destruct (negb (truthy (property (body req) "userEmail"))); [discriminate |].
  destruct (chat_turn E _ _ _ s) as [[r|e] s1] eqn:Hturn; [| discriminate].
  intros [= -> ->].
  apply chat_turn_ok_inv in Hturn as (th & s2 & reply' & s3 & _ & Hllm & _ & Hr).
  injection Hr as -> -> _. split; [reflexivity |].
  now apply (callLLM_reply_truthy _ _ _ _ _ Hllm).
Qed.

End ProxyFailures.

Lemma chat_without_llm_key_witness :
  exists s',
    post_v1_chat (Sample.world {[ "BOCHAT_API_KEY" := "s3cret" ]} Sample.pong)
      (Sample.turn_request (VStr "t-1")) (Sample.boot Sample.db0 []) =
      (Ok (apology None), s') /\
    llm_calls s' = [].
Proof.
  destruct (chat_without_llm_key
              (Sample.world {[ "BOCHAT_API_KEY" := "s3cret" ]} Sample.pong)
              (Sample.turn_request (VStr "t-1")) "c" (Sample.boot Sample.db0 []))
    as (details & s' & Hrun & Hl & _).
  - now apply turn_request_valid.
  - reflexivity.
  - exists s'. split; [| exact Hl].
    rewrite Hrun. f_equal. f_equal.
    apply (f_equal fst) in Hrun. vm_compute in Hrun.
    injection Hrun as Hd. now rewrite <- Hd.
Defined.

Lemma chat_reply_never_empty_witness :
  exists s',
    post_v1_chat (Sample.world Sample.full_env Sample.mute)
      (Sample.turn_request (VStr "t-1")) (Sample.boot Sample.db0 []) =
      (Ok (Response 200
             (ChatBody (VStr "I hit a snag processing that. Try again?") (VStr "t-1"))),
       s') /\
    truthy (VStr "I hit a snag processing that. Try again?") = true.
Proof.
  eexists. split; [vm_compute; reflexivity |].
  eapply (chat_reply_never_empty (Sample.world Sample.full_env Sample.mute)
            (Sample.turn_request (VStr "t-1")) (Sample.boot Sample.db0 [])).
  vm_compute. reflexivity.
Defined.

(** ** The routes as a whole *)

Section Routes.

Variable E : externals.
Implicit Types (s : state) (req : request).

Lemma authenticateRequest_answers req (next : M response) s :
  (exists r s', next s = (Ok r, s') /\
                (status r = 200 \/ status r = 400 \/ status r = 500)%Z) ->
  exists r s',
    authenticateRequest E req next s = (Ok r, s') /\
    (status r = 200 \/ status r = 400 \/ status r = 401 \/ status r = 403 \/
     status r = 500)%Z.
Proof.
  intros (r & s' & Hnext & Hst). unfold authenticateRequest.
  destruct (negb (env_truthy (headers req !! "x-bochat-api-key"))).
  - eexists _, _. split; [reflexivity |]. simpl. tauto.
  - destruct (negb (bool_decide _)).
    + eexists _, _. split; [reflexivity |]. simpl. tauto.
    + exists r, s'. split; [exact Hnext |]. tauto.
Qed.

Lemma chat_handler_answers req s :
  exists r s', chat_handler E req s = (Ok r, s') /\
               (status r = 200 \/ status r = 400 \/ status r = 500)%Z.
Proof.
  unfold chat_handler, try_catch.
  destruct (negb (truthy (property (body req) "message"))
            || negb (is_string (property (body req) "message"))).
  { eexists _, _. split; [reflexivity |]. simpl. tauto. }
  destruct (negb (truthy (property (body req) "userEmail"))).
  { eexists _, _. split; [reflexivity |]. simpl. tauto. }
  destruct (chat_turn E _ _ _ s) as [[r|e] s1] eqn:Hturn.
  - exists r, s1. split; [reflexivity |]. left. now apply chat_turn_status in Hturn.
  - rewrite chat_catch_run. eexists _, _. split; [reflexivity |]. simpl. tauto.
Qed.

Lemma thread_handler_answers req s :
  exists r s', thread_handler E req s = (Ok r, s') /\
               (status r = 200 \/ status r = 400 \/ status r = 500)%Z.
Proof.
  unfold thread_handler, try_catch.
  match goal with |- context [match ?c s with _ => _ end] =>
    destruct (c s) as [[r|e] s1] eqn:Hrun end.
  - exists r, s1. split; [reflexivity |]. left.
    bind_inv Hrun. destruct (negb a).
    + now inversion Hrun.
    + bind_inv Hrun. now inversion Hrun.
  - eexists _, _. split; [reflexivity |]. simpl. tauto.
Qed.

Lemma threads_handler_answers req s :
  exists r s', threads_handler E req s = (Ok r, s') /\
               (status r = 200 \/ status r = 400 \/ status r = 500)%Z.
Proof.
  unfold threads_handler, try_catch.
  match goal with |- context [match ?c s with _ => _ end] =>
    destruct (c s) as [[r|e] s1] eqn:Hrun end.
  - exists r, s1. split; [reflexivity |]. left.
    bind_inv Hrun.
    destruct (negb a || negb (truthy (property (query req) "userEmail"))).
    + now inversion Hrun.
    + bind_inv Hrun. now inversion Hrun.
  - eexists _, _. split; [reflexivity |]. simpl. tauto.
Qed.

(** X10: no error escapes a route: whatever the request, the store and the
    provider do, each of the three routes answers, and with one of the
    statuses 200, 400, 401, 403 and 500. *)
Theorem routes_always_answer req s :
  let answered (run : outcome response * state) :=
    exists r s', run = (Ok r, s') /\
      (status r = 200 \/ status r = 400 \/ status r = 401 \/ status r = 403 \/
       status r = 500)%Z in
  answered (post_v1_chat E req s) /\
  answered (get_v1_thread E req s) /\
  answered (get_v1_threads E req s).
Proof.
  simpl. unfold post_v1_chat, get_v1_thread, get_v1_threads.
  split; [| split]; apply authenticateRequest_answers.
  - apply chat_handler_answers.
  - apply thread_handler_answers.
  - apply threads_handler_answers.
Qed.

Lemma authenticateRequest_frame {X} (f : state -> X) req next :
  (forall line s, f (logged line s) = f s) ->
  untouched f next -> untouched f (authenticateRequest E req next).
Proof.
  intros Hlog Hnext. unfold authenticateRequest.
  destruct (negb (env_truthy _)); [apply untouched_ret |].
  destruct (negb (bool_decide _)); [| exact Hnext].
  apply untouched_bind; [now apply untouched_print | intros; apply untouched_ret].
Qed.

(** X11: the two read routes never write: whatever the request and the store do,
    the database after the request is the database before it, no identifier
    is generated and the provider is not called. *)
Theorem read_routes_never_write req s :
  store (get_v1_thread E req s).2 = store s /\
  store (get_v1_threads E req s).2 = store s /\
  uuids (get_v1_thread E req s).2 = uuids s /\
  uuids (get_v1_threads E req s).2 = uuids s /\
  llm_calls (get_v1_thread E req s).2 = llm_calls s /\
  llm_calls (get_v1_threads E req s).2 = llm_calls s.
Proof.
  assert (untouched store (get_v1_thread E req)) as H1.
  { apply authenticateRequest_frame; [reflexivity |].
    unfold thread_handler, threads_catch.
    apply untouched_try_catch; [| frame].
    apply untouched_bind; [apply getDb_store |]. intros db.
    destruct (negb db); [apply untouched_ret |].
    apply untouched_bind; [| intros; apply untouched_ret].
    apply untouched_db_query_store, select_messages_dated_read_only. }
  assert (untouched store (get_v1_threads E req)) as H2.
  { apply authenticateRequest_frame; [reflexivity |].
    unfold threads_handler, threads_catch.
    apply untouched_try_catch; [| frame].
    apply untouched_bind; [apply getDb_store |]. intros db.
    destruct (negb db || _); [apply untouched_ret |].
    apply untouched_bind; [| intros; apply untouched_ret].
    apply untouched_db_query_store, select_user_threads_read_only. }
  assert (untouched uuids (get_v1_thread E req)) as H3.
  { apply authenticateRequest_frame; [reflexivity |].
    unfold thread_handler, threads_catch.
    apply untouched_try_catch; [| frame].
    apply untouched_bind; [apply getDb_uuids | frame]. }
  assert (untouched uuids (get_v1_threads E req)) as H4.
  { apply authenticateRequest_frame; [reflexivity |].
    unfold threads_handler, threads_catch.
    apply untouched_try_catch; [| frame].
    apply untouched_bind; [apply getDb_uuids | frame]. }
  assert (untouched llm_calls (get_v1_thread E req)) as H5.
  { apply authenticateRequest_frame; [reflexivity |].
    unfold thread_handler, threads_catch.
    apply untouched_try_catch; [| frame].
    apply untouched_bind; [apply getDb_llm | frame]. }
  assert (untouched llm_calls (get_v1_threads E req)) as H6.
  { apply authenticateRequest_frame; [reflexivity |].
    unfold threads_handler, threads_catch.
    apply untouched_try_catch; [| frame].
    apply untouched_bind; [apply getDb_llm | frame]. }
  repeat split; [apply H1 | apply H2 | apply H3 | apply H4 | apply H5 | apply H6].
Qed.

(** X12: with the store available, the thread route answers the messages of the
    named thread, each once, by ascending creation time, for any caller that
    holds the key; a name that is no thread gets an empty list, not an
    error. *)
Theorem thread_route_reads req s t :
  authenticated E req ->
  available E s ->
  params req !! "threadId" = Some t ->
  exists rows s',
    get_v1_thread E req s =
      (Ok (Response 200 (ThreadBody (VStr t) (List.map as_view rows))), s') /\
    rows ≡ₚ filter (fun m => m_thread_id m = Some t) (messages (store s)) /\
    StronglySorted created_le rows /\
    (referential (store s) -> Sql.thread_exists (store s) t = false -> rows = []).
Proof.
  intros Hauth Hav Ht. pose proof Hav as [_ Hcalm].
  apply calm_connected in Hcalm.
  exists (Sql.thread_messages (store s) (Some t)). eexists. split.
  { unfold get_v1_thread. rewrite (authenticateRequest_match E req _ s Hauth).
    unfold thread_handler, try_catch. rewrite Ht. simpl.
    rewrite (bind_ok _ _ _ _ _ (getDb_available E s Hav)). simpl.
    unfold bind. rewrite (db_query_calm _ _ Hcalm).
    unfold Sql.select_messages_dated. now rewrite connected_store. }
  split; [apply thread_messages_sorted |]. split; [apply thread_messages_sorted |].
  apply no_thread_no_messages.
Qed.

(** X13: [getOrCreateThread] does not look at the owner of an existing thread: it
    resolves to the same thread and history for every [userEmail]. *)
Theorem existing_thread_ignores_user requested s id userEmail other :
  available E s ->
  truthy requested = true -> pg_param E requested = Some id ->
  Sql.thread_exists (store s) id = true ->
  getOrCreateThread E requested userEmail s = getOrCreateThread E requested other s /\
  (getOrCreateThread E requested userEmail s).1 =
    Ok (Thread requested (List.map as_msg (Sql.thread_messages (store s) (Some id)))).
Proof.
  intros Hav Ht Hid Hex.
  rewrite (getOrCreateThread_existing E requested userEmail s id Hav Ht Hid Hex).
  rewrite (getOrCreateThread_existing E requested other s id Hav Ht Hid Hex).
  split; reflexivity.
Qed.

(** X14: a [limit] that [parseInt] does not read as a Number from 0 to
    2^63 - 1 fails the listing with a 500: [NaN], as for the empty string or
    a word; a negative number; a Number beyond 2^63 - 1, as for the digits
    of 2^63 - 1 themselves, which denote the double 2^63.  The default 20
    applies only when the query has no [limit] at all. *)
Theorem listing_rejects_bad_limit req s :
  authenticated E req ->
  available E s ->
  truthy (property (query req) "userEmail") = true ->
  (forall n, parseInt (query_limit req) = Finite n ->
             (n < 0 \/ 9223372036854775807 < n)%Z) ->
  exists s',
    get_v1_threads E req s =
      (Ok (Response 500 (ErrorBody "Failed to fetch threads" None)), s').
Proof.
  intros Hauth Hav Hu Hlimit. pose proof Hav as [_ Hcalm].
  apply calm_connected in Hcalm.
  unfold get_v1_threads. rewrite (authenticateRequest_match E req _ s Hauth).
  unfold threads_handler, try_catch.
  rewrite (bind_ok _ _ _ _ _ (getDb_available E s Hav)). rewrite Hu. simpl.
  unfold bind. rewrite (db_query_calm _ _ Hcalm).
  destruct (select_user_threads_refused
              (pg_param E (property (query req) "userEmail"))
              (parseInt (query_limit req)) (tick (connected s)) (store (connected s))
              Hlimit) as [e ->].
  eexists. reflexivity.
Qed.

(** X15: a listing with no [userEmail] answers an empty list without running a
    statement, once the pool exists or when no store is configured. *)
Theorem listing_without_user req s :
  authenticated E req ->
  truthy (property (query req) "userEmail") = false ->
  pool s = true \/ degraded E s ->
  get_v1_threads E req s = (Ok (Response 200 (ThreadsBody [])), s).
Proof.
  intros Hauth Hu Hs.
  unfold get_v1_threads. rewrite (authenticateRequest_match E req _ s Hauth).
  unfold threads_handler, try_catch. rewrite Hu.
  destruct Hs as [Hpool | Hd].
  - now rewrite (bind_ok _ _ _ _ _ (getDb_ready E s Hpool)).
  - now rewrite (bind_ok _ _ _ _ _ (getDb_degraded E s Hd)).
Qed.

(** X16: in degraded mode both read routes answer empty results, for any thread
    and any user, and change nothing. *)
Theorem degraded_reads_empty req s :
  authenticated E req ->
  degraded E s ->
  get_v1_thread E req s =
    (Ok (Response 200
           (ThreadBody (from_option VStr VUndefined (params req !! "threadId")) [])), s) /\
  get_v1_threads E req s = (Ok (Response 200 (ThreadsBody [])), s).
Proof.
  intros Hauth Hd. unfold get_v1_thread, get_v1_threads.
  rewrite !(authenticateRequest_match E req _ s Hauth).
  unfold thread_handler, threads_handler, try_catch.
  now rewrite !(bind_ok _ _ _ _ _ (getDb_degraded E s Hd)).
Qed.

End Routes.

Lemma sample_key_authenticates fields :
  authenticated Sample.gateway (Sample.list_request fields).
Proof. exists "s3cret". repeat split. discriminate. Qed.

Lemma thread_route_reads_witness :
  exists s',
    get_v1_thread Sample.gateway
      (Request {[ "x-bochat-api-key" := "s3cret" ]} "10.0.0.7" ∅
         {[ "threadId" := "t-1" ]} ∅)
      (Sample.boot Sample.db0 []) =
    (Ok (Response 200
           (ThreadBody (VStr "t-1")
              [MessageView "user" "a" 11; MessageView "assistant" "b" 12])),
     s').
Proof.
  destruct (thread_route_reads Sample.gateway
              (Request {[ "x-bochat-api-key" := "s3cret" ]} "10.0.0.7" ∅
                 {[ "threadId" := "t-1" ]} ∅)
              (Sample.boot Sample.db0 []) "t-1")
    as (rows & s' & Hrun & _).
  - exists "s3cret". repeat split. discriminate.
  - split; [reflexivity | constructor].
  - reflexivity.
  - exists s'.
    assert ((get_v1_thread Sample.gateway
               (Request {[ "x-bochat-api-key" := "s3cret" ]} "10.0.0.7" ∅
                  {[ "threadId" := "t-1" ]} ∅)
               (Sample.boot Sample.db0 [])).1 =
            Ok (Response 200
                  (ThreadBody (VStr "t-1")
                     [MessageView "user" "a" 11; MessageView "assistant" "b" 12])))
      as Hfirst by (vm_compute; reflexivity).
    rewrite Hrun in Hfirst. cbn [fst] in Hfirst.
    rewrite Hrun. now rewrite Hfirst.
Defined.

Lemma existing_thread_ignores_user_witness :
  getOrCreateThread Sample.gateway (VStr "t-3") (VStr "u@x.com")
    (Sample.boot Sample.db0 []) =
  getOrCreateThread Sample.gateway (VStr "t-3") (VStr "v@x.com")
    (Sample.boot Sample.db0 []).
Proof.
  apply (existing_thread_ignores_user Sample.gateway (VStr "t-3")
           (Sample.boot Sample.db0 []) "t-3" (VStr "u@x.com") (VStr "v@x.com")).
  - split; [reflexivity | constructor].
  - reflexivity.
  - reflexivity.
  - vm_compute. reflexivity.
Defined.

Lemma listing_rejects_bad_limit_witness :
  exists s',
    get_v1_threads Sample.gateway
      (Sample.list_request
         {[ "userEmail" := VStr "u@x.com"; "limit" := VStr "9223372036854775807" ]})
      (Sample.boot Sample.db0 []) =
    (Ok (Response 500 (ErrorBody "Failed to fetch threads" None)), s').
Proof.
  destruct (listing_rejects_bad_limit Sample.gateway
              (Sample.list_request
                 {[ "userEmail" := VStr "u@x.com"; "limit" := VStr "9223372036854775807" ]})
              (Sample.boot Sample.db0 []))
    as (s' & Hrun).
  - apply sample_key_authenticates.
  - split; [reflexivity | constructor].
  - reflexivity.
  - intros n Hn. vm_compute in Hn. injection Hn as <-. right. reflexivity.
  - now exists s'.
Defined.

Lemma listing_without_user_witness :
  get_v1_threads Sample.gateway (Sample.list_request ∅)
    (State true Sample.db0 100 [] 0 [] []) =
  (Ok (Response 200 (ThreadsBody [])), State true Sample.db0 100 [] 0 [] []).
Proof.
  apply (listing_without_user Sample.gateway).
  - apply sample_key_authenticates.
  - reflexivity.
  - left. reflexivity.
Defined.

Lemma degraded_reads_empty_witness :
  get_v1_threads Sample.stateless_gateway
    (Sample.list_request {[ "userEmail" := VStr "u@x.com" ]})
    (Sample.boot Sample.db0 []) =
  (Ok (Response 200 (ThreadsBody [])), Sample.boot Sample.db0 []).
Proof.
  apply (degraded_reads_empty Sample.stateless_gateway).
  - exists "s3cret". repeat split. discriminate.
  - split; reflexivity.
Defined.

(** ** What the routes never do to the store *)

Lemma extends_refl d : extends d d.
Proof. split; reflexivity. Qed.

Lemma extends_trans d1 d2 d3 : extends d1 d2 -> extends d2 d3 -> extends d1 d3.
Proof. intros [H1 H2] [H3 H4]. split; etrans; eassumption. Qed.

Lemma touched_identity who stamp r :
  thread_identity (touched who stamp r) = thread_identity r.
Proof. unfold touched. now destruct (bool_decide _). Qed.

Lemma touched_id who stamp r : t_id (touched who stamp r) = t_id r.
Proof. unfold touched. now destruct (bool_decide _). Qed.

Lemma insert_thread_extends id u t d a d' :
  Sql.insert_thread id u t d = Ok (a, d') -> extends d d'.
Proof.
  intros H.
  apply insert_thread_ok_inv in H as (key & owner & _ & _ & [[_ ->] | [_ ->]]);
    [apply extends_refl |].
  split; simpl; [reflexivity |].
  rewrite List.map_app. now apply prefix_app_r.
Qed.

Lemma insert_message_extends id thread role content t d a d' :
  Sql.insert_message id thread role content t d = Ok (a, d') -> extends d d'.
Proof.
  unfold Sql.insert_message. destruct content as [content|]; [| discriminate].
  destruct (Sql.message_exists d id); [discriminate |].
  destruct (match thread with Some tid => Sql.thread_exists d tid | None => true end);
    [| discriminate].
  intros [= _ <-]. split; simpl; [now apply prefix_app_r | reflexivity].
Qed.

Lemma touch_thread_extends id t d a d' :
  Sql.touch_thread id t d = Ok (a, d') -> extends d d'.
Proof.
  unfold Sql.touch_thread. intros [= _ <-]. split; simpl; [reflexivity |].
  change (List.map thread_identity (threads d) `prefix_of`
          List.map thread_identity (List.map (touched id t) (threads d))).
  rewrite List.map_map.
  rewrite (List.map_ext (fun r => thread_identity (touched id t r)) thread_identity);
    [reflexivity |].
  intros r. apply touched_identity.
Qed.

Lemma thread_exists_spec d id :
  Sql.thread_exists d id = true <-> id ∈ List.map t_id (threads d).
Proof.
  unfold Sql.thread_exists. rewrite bool_decide_eq_true, Exists_exists.
  rewrite list_elem_of_In, List.in_map_iff.
  split; intros (t & H1 & H2); exists t; split;
    first [congruence | now apply list_elem_of_In].
Qed.

Lemma message_exists_spec d id :
  Sql.message_exists d id = true <-> id ∈ List.map m_id (messages d).
Proof.
  unfold Sql.message_exists. rewrite bool_decide_eq_true, Exists_exists.
  rewrite list_elem_of_In, List.in_map_iff.
  split; intros (t & H1 & H2); exists t; split;
    first [congruence | now apply list_elem_of_In].
Qed.

Lemma NoDup_snoc_fresh {A} (l : list A) x : NoDup l -> x ∉ l -> NoDup (l ++ [x]).
Proof.
  intros Hl Hx. apply NoDup_app. split; [exact Hl |]. split.
  - intros y Hy Hin. apply list_elem_of_singleton in Hin. now subst.
  - apply NoDup_singleton.
Qed.

Lemma insert_thread_keyed id u t d a d' :
  keyed d -> Sql.insert_thread id u t d = Ok (a, d') -> keyed d'.
Proof.
  intros [Ht Hm] H.
  apply insert_thread_ok_inv in H as (key & owner & _ & _ & [[_ ->] | [Hex ->]]);
    [now split |].
  split; simpl; [| exact Hm]. rewrite List.map_app. simpl.
  apply NoDup_snoc_fresh; [exact Ht |].
  intros Hin. apply thread_exists_spec in Hin. congruence.
Qed.

Lemma insert_message_keyed id thread role content t d a d' :
  keyed d -> Sql.insert_message id thread role content t d = Ok (a, d') -> keyed d'.
Proof.
  intros [Ht Hm]. unfold Sql.insert_message.
  destruct content as [content|]; [| discriminate].
  destruct (Sql.message_exists d id) eqn:Hex; [discriminate |].
  destruct (match thread with Some tid => Sql.thread_exists d tid | None => true end);
    [| discriminate].
  intros [= _ <-]. split; simpl; [exact Ht |]. rewrite List.map_app. simpl.
  apply NoDup_snoc_fresh; [exact Hm |].
  intros Hin. apply message_exists_spec in Hin. congruence.
Qed.

Lemma touch_thread_keyed id t d a d' :
  keyed d -> Sql.touch_thread id t d = Ok (a, d') -> keyed d'.
Proof.
  intros [Ht Hm]. unfold Sql.touch_thread. intros [= _ <-].
  split; simpl; [| exact Hm].
  change (NoDup (List.map t_id (List.map (touched id t) (threads d)))).
  rewrite List.map_map.
  rewrite (List.map_ext (fun r => t_id (touched id t r)) t_id); [exact Ht |].
  intros r. apply touched_id.
Qed.

Section StoreInvariants.

Variable E : externals.
Implicit Types (s : state) (req : request).

Lemma extends_stable d0 : stable (fun s => extends d0 (store s)).
Proof. split; [| split; [| split]]; intros; assumption. Qed.

Lemma extends_write d0 {A} (stmt : Sql.statement A) :
  (forall t d a d', stmt t d = Ok (a, d') -> extends d d') ->
  keeps (fun s => extends d0 (store s)) (db_query stmt).
Proof.
  intros Hstmt. apply keeps_db_query; [apply extends_stable |].
  intros s a d Hs Hrun. simpl. eapply extends_trans; [exact Hs |].
  now apply (Hstmt _ _ _ _ Hrun).
Qed.

Lemma getDb_extends d0 : keeps (fun s => extends d0 (store s)) (getDb E).
Proof. intros s Hs. now rewrite getDb_store. Qed.

(** X17: the chat route only appends: after a request, whatever its outcome,
    every message that was in the store is still there, unchanged and at
    the same place, and so is every thread, with its identifier, owner, title
    and creation time. *)
Theorem chat_route_only_appends req s :
  extends (store s) (store (post_v1_chat E req s).2).
Proof.
  assert (keeps (fun s' => extends (store s) (store s')) (post_v1_chat E req)) as Hk.
  { unfold post_v1_chat, authenticateRequest, chat_handler, chat_catch, chat_turn,
      getOrCreateThread, saveMessage, callLLM, or_uuidv4.
    invariant (extends_stable (store s))
      ltac:(first
              [ apply getDb_extends
              | apply extends_write;
                first [ apply insert_thread_extends
                      | apply insert_message_extends
                      | apply touch_thread_extends ] ]). }
  apply Hk, extends_refl.
Qed.

Lemma keyed_stable : stable (fun s => keyed (store s)).
Proof. split; [| split; [| split]]; intros; assumption. Qed.

Lemma keyed_write {A} (stmt : Sql.statement A) :
  (forall t d a d', keyed d -> stmt t d = Ok (a, d') -> keyed d') ->
  keeps (fun s => keyed (store s)) (db_query stmt).
Proof.
  intros Hstmt. apply keeps_db_query; [apply keyed_stable |].
  intros s a d Hs Hrun. simpl. now apply (Hstmt _ _ _ _ Hs Hrun).
Qed.

Lemma getDb_keyed : keeps (fun s => keyed (store s)) (getDb E).
Proof. intros s Hs. now rewrite getDb_store. Qed.

(** X18: the routes keep the primary keys: if no two threads and no two messages
    share an identifier before a request, none do after it. *)
Theorem routes_keep_keys req s :
  keyed (store s) ->
  keyed (store (post_v1_chat E req s).2) /\
  keyed (store (get_v1_thread E req s).2) /\
  keyed (store (get_v1_threads E req s).2).
Proof.
  intros Hs.
  assert (keeps (fun s => keyed (store s)) (post_v1_chat E req) /\
          keeps (fun s => keyed (store s)) (get_v1_thread E req) /\
          keeps (fun s => keyed (store s)) (get_v1_threads E req)) as (H1 & H2 & H3).
  { unfold post_v1_chat, get_v1_thread, get_v1_threads, authenticateRequest,
      chat_handler, thread_handler, threads_handler, chat_catch, threads_catch,
      chat_turn, getOrCreateThread, saveMessage, callLLM, or_uuidv4.
    split; [| split];
      invariant keyed_stable
        ltac:(first
                [ apply getDb_keyed
                | apply keyed_write;
                  first [ apply insert_thread_keyed
                        | apply insert_message_keyed
                        | apply touch_thread_keyed ] ]). }
  split; [now apply H1 | split; [now apply H2 | now apply H3]].
Qed.

Lemma dated_later s t d :
  dated s -> (now s <= t)%Z -> d = store s ->
  dated (State (pool s) d t (tail (script s)) (uuids s) (llm_calls s) (console s)).
Proof.
  intros [Ht Hm] Hle ->. split; simpl.
  - eapply Forall_impl; [exact Ht |]. simpl. intros r Hr. lia.
  - eapply Forall_impl; [exact Hm |]. simpl. intros r Hr. lia.
Qed.

Lemma dated_stable : stable dated.
Proof.
  split; [| split; [| split]]; try (intros; assumption).
  intros s Hs. apply (dated_later s (tick s) (store s) Hs (tick_later s) eq_refl).
Qed.

Lemma dated_insert_thread id u :
  forall s a d, dated s -> Sql.insert_thread id u (tick s) (store s) = Ok (a, d) ->
                dated (stepped d s).
Proof.
  intros s a d Hs H.
  apply insert_thread_ok_inv in H as (key & owner & _ & _ & [[_ ->] | [_ ->]]);
    [now apply dated_stable |].
  destruct (dated_later s (tick s) (store s) Hs (tick_later s) eq_refl) as [Ht Hm].
  split; simpl in *; [| exact Hm].
  apply Forall_app. split; [exact Ht |].
  constructor; [simpl; lia | constructor].
Qed.

Lemma dated_insert_message id thread role content :
  forall s a d, dated s ->
    Sql.insert_message id thread role content (tick s) (store s) = Ok (a, d) ->
    dated (stepped d s).
Proof.
  intros s a d Hs. unfold Sql.insert_message.
  destruct content as [content|]; [| discriminate].
  destruct (Sql.message_exists (store s) id); [discriminate |].
  destruct (match thread with
            | Some tid => Sql.thread_exists (store s) tid
            | None => true
            end); [| discriminate].
  intros [= _ <-].
  destruct (dated_later s (tick s) (store s) Hs (tick_later s) eq_refl) as [Ht Hm].
  split; simpl in *; [exact Ht |].
  apply Forall_app. split; [exact Hm |].
  constructor; [simpl; lia | constructor].
Qed.

Lemma dated_touch_thread id :
  forall s a d, dated s -> Sql.touch_thread id (tick s) (store s) = Ok (a, d) ->
                dated (stepped d s).
Proof.
  intros s a d Hs. unfold Sql.touch_thread. intros [= _ <-].
  pose proof (tick_later s) as Hle. destruct Hs as [Ht Hm].
  split; simpl.
  - apply Forall_forall. intros r Hr.
    apply list_elem_of_In, List.in_map_iff in Hr as (r0 & <- & Hin).
    rewrite Forall_forall in Ht. specialize (Ht r0 (proj2 (list_elem_of_In _ _) Hin)).
    destruct (bool_decide (Some (t_id r0) = id)); simpl; lia.
  - eapply Forall_impl; [exact Hm |]. simpl. intros r Hr. lia.
Qed.

Lemma getDb_dated : keeps dated (getDb E).
Proof.
  intros s Hs.
  assert (dated (stepped (store s) (set_pool true s))) as Hstep.
  { apply (dated_later s (tick s) (store s) Hs (tick_later s) eq_refl). }
  destruct (getDb_cases E s) as [-> | (Hpool & _ & [[-> _] | (r & _ & ->)])];
    [exact Hs | | exact Hstep].
  unfold connected. rewrite Hpool. exact Hstep.
Qed.

(** X19: the routes keep the timestamps in order: if before a request every
    creation and update time of the store is at most the store's clock, and
    no thread was updated before it was created, the same holds after it. *)
Theorem routes_keep_dates req s :
  dated s ->
  dated (post_v1_chat E req s).2 /\
  dated (get_v1_thread E req s).2 /\
  dated (get_v1_threads E req s).2.
Proof.
  intros Hs.
  assert (keeps dated (post_v1_chat E req) /\
          keeps dated (get_v1_thread E req) /\
          keeps dated (get_v1_threads E req)) as (H1 & H2 & H3).
  { unfold post_v1_chat, get_v1_thread, get_v1_threads, authenticateRequest,
      chat_handler, thread_handler, threads_handler, chat_catch, threads_catch,
      chat_turn, getOrCreateThread, saveMessage, callLLM, or_uuidv4.
    split; [| split];
      invariant dated_stable
        ltac:(first
                [ apply getDb_dated
                | apply keeps_db_query;
                  [ apply dated_stable
                  | first [ apply dated_insert_thread
                          | apply dated_insert_message
                          | apply dated_touch_thread ] ] ]). }
  split; [now apply H1 | split; [now apply H2 | now apply H3]].
Qed.

End StoreInvariants.

Lemma routes_keep_keys_witness :
  keyed Sample.db0 /\
  keyed (store (post_v1_chat Sample.gateway (Sample.turn_request (VStr "t-9"))
                  (Sample.boot Sample.db0 [])).2).
Proof.
  assert (keyed (store (Sample.boot Sample.db0 []))) as Hk.
  { split; simpl; refine (bool_decide_unpack _ _); vm_compute; exact I. }
  split; [exact Hk |].
  apply (routes_keep_keys Sample.gateway (Sample.turn_request (VStr "t-9")) _ Hk).
Defined.

Lemma routes_keep_dates_witness :
  dated (Sample.boot Sample.db0 []) /\
  dated (post_v1_chat Sample.gateway (Sample.turn_request (VStr "t-9"))
           (Sample.boot Sample.db0 [])).2.
Proof.
  assert (dated (Sample.boot Sample.db0 [])) as Hd.
  { split; simpl; repeat constructor; simpl; lia. }
  split; [exact Hd |].
  apply (routes_keep_dates Sample.gateway (Sample.turn_request (VStr "t-9")) _ Hd).
Defined.

(** X20: the routes keep the foreign key of [messages]: if before a request every
    message of a thread refers to a row of [threads], the same holds after
    it, whatever the request and its outcome. *)
Theorem routes_keep_foreign_key E req s :
  referential (store s) ->
  referential (store (post_v1_chat E req s).2) /\
  referential (store (get_v1_thread E req s).2) /\
  referential (store (get_v1_threads E req s).2).
Proof.
  intros Hs. destruct (routes_keep_referential E req) as (H1 & H2 & H3).
  split; [now apply H1 | split; [now apply H2 | now apply H3]].
Qed.

Lemma routes_keep_foreign_key_witness :
  referential Sample.db0 /\
  referential (store (post_v1_chat Sample.gateway (Sample.turn_request (VStr "t-9"))
                        (Sample.boot Sample.db0 [])).2).
Proof.
  assert (referential (store (Sample.boot Sample.db0 []))) as Hfk.
  { intros m tid Hin Htid. apply list_elem_of_In in Hin. simpl in Hin.
    destruct Hin as [<- | [<- | [<- | []]]];
      injection Htid as <-; vm_compute; reflexivity. }
  split; [exact Hfk |].
  apply (routes_keep_foreign_key Sample.gateway (Sample.turn_request (VStr "t-9")) _ Hfk).
Defined.

(** X21: degraded mode lasts: with [DATABASE_URL] unset and no pool, no request to
    any route creates a pool, so every later request finds the gateway in
    degraded mode again. *)
Theorem degraded_mode_lasts E req s :
  degraded E s ->
  degraded E (post_v1_chat E req s).2 /\
  degraded E (get_v1_thread E req s).2 /\
  degraded E (get_v1_threads E req s).2.
Proof. apply degraded_forever. Qed.

Lemma degraded_mode_lasts_witness :
  degraded Sample.stateless_gateway
    (post_v1_chat Sample.stateless_gateway (Sample.turn_request VUndefined)
       (Sample.boot Sample.db0 [])).2.
Proof.
  apply (degraded_mode_lasts Sample.stateless_gateway
           (Sample.turn_request VUndefined) (Sample.boot Sample.db0 [])).
  split; reflexivity.
Defined.
